(** * Attempt-windowed rate limiter ([src/lib/rateLimit.ts])

    A shallow embedding of the rate limiter of the Bloggly backend and the
    properties its specification states about it.

    Modelling conventions.
    - Timestamps ([Date.getTime()], the [created_at] column) are integer
      milliseconds, in [Z].  [toISOString] keeps millisecond precision, so
      a timestamp written by the limiter is read back unchanged.
    - The [rate_limit_logs] table is a list of rows; [insert] appends.
    - Every [await supabaseAdmin...] is one store call.  A store call either
      completes or throws; which call sites throw is an input of the model
      ([Faults]).  A call that throws leaves the table unchanged.
    - [Math.ceil (x / 1000)] on an integer [x] is integer ceiling division.
      (The floating-point quotient of an integer below 2^53 by 1000 is an
      integer only when the exact quotient is, so the two agree.)
    - One call of the limiter runs to completion before the next starts. *)

From Stdlib Require Import ZArith List Bool String Lia.
From stdpp Require Import base gmap strings.
Import ListNotations.

Local Open Scope string_scope.
Local Open Scope Z_scope.

(** ** Data model *)

(** [interface RateLimitConfig] *)
Record RateLimitConfig := {
  windowMs : Z;
  maxAttempts : Z;
  blockDurationMs : Z
}.

(** A JavaScript value in a numeric position of the result: a number, [NaN]
    or [undefined]. *)
Inductive JsNumber :=
| Num (z : Z)
| NaN
| Undefined.

(** [interface RateLimitResult] *)
Record RateLimitResult := {
  allowed : bool;
  remaining : JsNumber;
  resetTime : JsNumber
}.

(** A row of the table [rate_limit_logs]. *)
Record AttemptRecord := {
  identifier : string;
  attempt_count : Z;
  blocked : bool;
  created_at : Z
}.

Definition Store := list AttemptRecord.

(** [const rateLimitConfigs: Record<string, RateLimitConfig>] *)
Definition rateLimitConfigs : gmap string RateLimitConfig :=
  <["auth" := {| windowMs := 15 * 60 * 1000;
                 maxAttempts := 5;
                 blockDurationMs := 60 * 60 * 1000 |}]>
  (<["password_reset" := {| windowMs := 60 * 60 * 1000;
                            maxAttempts := 3;
                            blockDurationMs := 24 * 60 * 60 * 1000 |}]>
  (<["api_general" := {| windowMs := 60 * 1000;
                         maxAttempts := 100;
                         blockDurationMs := 5 * 60 * 1000 |}]> ∅)).

(** ** Property lookup on the configuration object

    [rateLimitConfigs] is an object literal, so [rateLimitConfigs[type]]
    first looks for an own property and then follows the prototype chain to
    [Object.prototype].  The names below are the properties of
    [Object.prototype]; each of them reads as a function (or, for
    [__proto__], as [Object.prototype] itself), never as [undefined]. *)
Definition Object_prototype_names : list string :=
  [ "constructor"; "hasOwnProperty"; "isPrototypeOf"; "propertyIsEnumerable";
    "toLocaleString"; "toString"; "valueOf"; "__proto__";
    "__defineGetter__"; "__defineSetter__";
    "__lookupGetter__"; "__lookupSetter__" ].

Inductive JsLookup :=
| Own (c : RateLimitConfig)   (* an entry of the configuration map *)
| Inherited                   (* a member of [Object.prototype] *)
| NotFound.                   (* [undefined] *)

Definition js_get (o : gmap string RateLimitConfig) (k : string) : JsLookup :=
  match o !! k with
  | Some c => Own c
  | None =>
      if existsb (String.eqb k) Object_prototype_names then Inherited
      else NotFound
  end.

(** ** Exceptions and the store monad *)

Inductive Error :=
| TypeError      (* reading a property of [undefined] *)
| RangeError     (* [toISOString] of an invalid [Date] *)
| StoreError.    (* raised by a store call *)

Inductive result (A : Type) :=
| Ok (a : A)
| Throw (e : Error).
Arguments Ok {A} a.
Arguments Throw {A} e.

(** A computation reads and writes the table and either yields a value or
    throws. *)
Definition M (A : Type) : Type := Store -> Store * result A.

Definition ret {A} (a : A) : M A := fun s => (s, Ok a).

Definition bind {A B} (m : M A) (k : A -> M B) : M B :=
  fun s =>
    match m s with
    | (s', Ok a) => k a s'
    | (s', Throw e) => (s', Throw e)
    end.

(** [try { m } catch (error) { h error }] *)
Definition try_catch {A} (m : M A) (h : Error -> M A) : M A :=
  fun s =>
    match m s with
    | (s', Ok a) => (s', Ok a)
    | (s', Throw e) => h e s'
    end.

Declare Scope store_scope.
Delimit Scope store_scope with store.
Notation "x <- m ;; k" := (bind m (fun x => k))
  (at level 100, m at next level, right associativity) : store_scope.
Notation "m ;;; k" := (bind m (fun _ => k))
  (at level 100, right associativity) : store_scope.
Local Open Scope store_scope.

(** One [await] on a query: throws when [fault] says so, runs [op] on the
    table otherwise. *)
Definition store_call {A} (fault : bool) (op : Store -> Store * A) : M A :=
  fun s =>
    if fault then (s, Throw StoreError)
    else let (s', a) := op s in (s', Ok a).

(** The six call sites of [rateLimit], in source order. *)
Record Faults := {
  cleanup_throws : bool;        (* lines 62-68 *)
  blockCheck_throws : bool;     (* lines 71-82 *)
  count_throws : bool;          (* lines 99-104 *)
  insertAttempt_throws : bool;  (* lines 110-115 *)
  insertBlock_throws : bool;    (* lines 121-126 *)
  reset_throws : bool           (* lines 138-142 *)
}.

Definition no_faults : Faults :=
  {| cleanup_throws := false; blockCheck_throws := false;
     count_throws := false; insertAttempt_throws := false;
     insertBlock_throws := false; reset_throws := false |}.

Definition all_faults : Faults :=
  {| cleanup_throws := true; blockCheck_throws := true;
     count_throws := true; insertAttempt_throws := true;
     insertBlock_throws := true; reset_throws := true |}.

(** ** The queries *)

(** [.delete().lt("created_at", cutoff)] *)
Definition delete_older (cutoff : Z) (s : Store) : Store :=
  List.filter (fun r => negb (created_at r <? cutoff)) s.

(** The row filter [.eq("identifier", key).eq("blocked", b).gte("created_at", from)] *)
Definition matches (key : string) (b : bool) (from : Z) (r : AttemptRecord) : bool :=
  String.eqb (identifier r) key && Bool.eqb (blocked r) b && (from <=? created_at r).

(** [.order("created_at", { ascending: false }).limit(1).single()]:
    a row with the greatest [created_at], [null] when there is none. *)
Fixpoint latest (l : list AttemptRecord) : option AttemptRecord :=
  match l with
  | [] => None
  | r :: l' =>
      match latest l' with
      | None => Some r
      | Some r' => if created_at r' <=? created_at r then Some r else Some r'
      end
  end.

Definition select_block (key : string) (from : Z) (s : Store) : option AttemptRecord :=
  latest (List.filter (matches key true from) s).

(** [.select("*", { count: "exact" })] with the filter for recent attempts. *)
Definition count_attempts (key : string) (from : Z) (s : Store) : Z :=
  Z.of_nat (List.length (List.filter (matches key false from) s)).

(** [.insert(row)] *)
Definition insert_row (r : AttemptRecord) (s : Store) : Store :=
  (s ++ [r])%list.

(** [.delete().eq("identifier", key).eq("blocked", false)] *)
Definition delete_attempts (key : string) (s : Store) : Store :=
  List.filter
    (fun r => negb (String.eqb (identifier r) key && Bool.eqb (blocked r) false)) s.

(** ** The limiter *)

(** [Math.ceil(x / 1000)] *)
Definition ceil_seconds (x : Z) : Z := - ((- x) / 1000).

(** [`${type}_${identifier}`] *)
Definition make_key (type ident : string) : string :=
  (type ++ "_" ++ ident)%string.

(** The object returned by the [catch] block. *)
Definition fail_open (config : RateLimitConfig) : RateLimitResult :=
  {| allowed := true;
     remaining := Num (maxAttempts config);
     resetTime := Num (ceil_seconds (windowMs config)) |}.

(** The body of the [try] block, lines 61-152. *)
Definition rateLimit_try (config : RateLimitConfig) (key : string)
    (success : bool) (now : Z) (f : Faults) : M RateLimitResult :=
  let windowStart := now - windowMs config in
  (* Clean up old entries *)
  store_call (cleanup_throws f)
    (fun s => (delete_older (now - blockDurationMs config) s, tt)) ;;;
  (* Check if currently blocked *)
  blockEntry <- store_call (blockCheck_throws f)
    (fun s => (s, select_block key (now - blockDurationMs config) s)) ;;
  match blockEntry with
  | Some entry =>
      let resetTime :=
        ceil_seconds (created_at entry + blockDurationMs config - now) in
      ret {| allowed := false;
             remaining := Num 0;
             resetTime := Num (Z.max resetTime 0) |}
  | None =>
      (* Count recent attempts *)
      currentCount <- store_call (count_throws f)
        (fun s => (s, count_attempts key windowStart s)) ;;
      (* Record this attempt *)
      (if negb success then
         store_call (insertAttempt_throws f)
           (fun s => (insert_row {| identifier := key;
                                    attempt_count := currentCount + 1;
                                    blocked := false;
                                    created_at := now |} s, tt))
       else ret tt) ;;;
      (* Check if limit exceeded *)
      if negb success && (maxAttempts config <=? currentCount + 1) then
        (* Block the identifier *)
        store_call (insertBlock_throws f)
          (fun s => (insert_row {| identifier := key;
                                   attempt_count := currentCount + 1;
                                   blocked := true;
                                   created_at := now |} s, tt)) ;;;
        ret {| allowed := false;
               remaining := Num 0;
               resetTime := Num (ceil_seconds (blockDurationMs config)) |}
      else
        (* Allow the request *)
        (if success then
           (* Reset counter on successful attempt *)
           store_call (reset_throws f) (fun s => (delete_attempts key s, tt))
         else ret tt) ;;;
        ret {| allowed := true;
               remaining :=
                 Num (Z.max 0 (maxAttempts config
                               - (currentCount + (if success then 0 else 1))));
               resetTime := Num (ceil_seconds (windowMs config)) |}
  end.

(** How a call of the [async] function ends: the promise resolves with a
    result or rejects with an error. *)
Inductive Outcome :=
| Returned (r : RateLimitResult)
| Rejected (e : Error).

(** [async function rateLimit(identifier, success = true, type = "auth")].
    An omitted argument is [None]; [now] is the reading of [new Date()].

    - [Own config]: the [try] block runs, and the [catch] block turns any
      exception into [fail_open config].
    - [NotFound]: [config] is [undefined], and [config.windowMs] on line 57
      throws a [TypeError] before the [try] block is entered.
    - [Inherited]: [config] is a member of [Object.prototype]; its
      [windowMs], [maxAttempts] and [blockDurationMs] are [undefined].
      Line 57 builds an invalid [Date] without throwing.  Inside the [try]
      block, [new Date(now.getTime() - undefined).toISOString()] on line 67
      throws a [RangeError] while the arguments of [.lt] are evaluated, so no
      query is sent; the [catch] block returns [remaining: undefined] and
      [resetTime: Math.ceil(undefined / 1000)], which is [NaN]. *)
Definition rateLimit (ident : string) (success : option bool)
    (type : option string) (now : Z) (f : Faults) (s : Store)
  : Store * Outcome :=
  let success := default true success in
  let type := default "auth" type in
  match js_get rateLimitConfigs type with
  | NotFound => (s, Rejected TypeError)
  | Inherited =>
      (s, Returned {| allowed := true; remaining := Undefined; resetTime := NaN |})
  | Own config =>
      let key := make_key type ident in
      match try_catch (rateLimit_try config key success now f)
                      (fun _ => ret (fail_open config)) s with
      | (s', Ok r) => (s', Returned r)
      | (s', Throw e) => (s', Rejected e)
      end
  end.

(** [export async function rateLimitAuth(identifier, success = true, type = "auth")] *)
Definition rateLimitAuth (ident : string) (success : option bool)
    (type : option string) (now : Z) (f : Faults) (s : Store)
  : Store * Outcome :=
  let success := default true success in
  let type := default "auth" type in
  rateLimit ident (Some success) (Some type) now f s.

(** [export async function rateLimitAPI(identifier, success = true)] *)
Definition rateLimitAPI (ident : string) (success : option bool)
    (now : Z) (f : Faults) (s : Store) : Store * Outcome :=
  let success := default true success in
  rateLimit ident (Some success) (Some "api_general") now f s.

(** [export function createRateLimitMiddleware(type = "api_general")]: the
    returned function calls [rateLimit(identifier, true, type)]. *)
Definition createRateLimitMiddleware (type : option string)
  : string -> Z -> Faults -> Store -> Store * Outcome :=
  let type := default "api_general" type in
  fun ident => rateLimit ident (Some true) (Some type).

(** A run of consecutive calls for one identifier and type, none of whose
    store calls throws: [(success, now)] per call, the outcomes in order. *)
Fixpoint run_calls (ident type : string) (calls : list (bool * Z)) (s : Store)
  : list Outcome * Store :=
  match calls with
  | [] => ([], s)
  | (success, now) :: rest =>
      let (s1, o) := rateLimit ident (Some success) (Some type) now no_faults s in
      let (os, s2) := run_calls ident type rest s1 in
      (o :: os, s2)
  end.

(** A run of calls as the route handlers make them,
    [await rateLimitAPI("<route name>")] with [success] omitted: the time
    and the throwing store calls per call, the outcomes in order. *)
Fixpoint run_api (ident : string) (calls : list (Z * Faults)) (s : Store)
  : list Outcome * Store :=
  match calls with
  | [] => ([], s)
  | (now, f) :: rest =>
      let (s1, o) := rateLimitAPI ident None now f s in
      let (os, s2) := run_api ident rest s1 in
      (o :: os, s2)
  end.

(** ** Vocabulary of the statements *)

(** The rows of one key, in table order. *)
Definition key_rows (key : string) (s : Store) : Store :=
  List.filter (fun r => String.eqb (identifier r) key) s.

(** The table holds no row of the key. *)
Definition no_rows (key : string) (s : Store) : Prop :=
  forall r, In r s -> identifier r <> key.

(** The table holds no block row of the key. *)
Definition no_block (key : string) (s : Store) : Prop :=
  forall r, In r s -> identifier r = key -> blocked r = false.

(** Times that are each more than [gap] after the one before, the first one
    more than [gap] after [prev]. *)
Fixpoint spaced (gap prev : Z) (ts : list Z) : Prop :=
  match ts with
  | [] => True
  | t :: rest => prev + gap < t /\ spaced gap t rest
  end.

(** * Properties *)

(** ** The registered types *)

Lemma registered_cases (type : string) (c : RateLimitConfig) :
  rateLimitConfigs !! type = Some c ->
  (type = "auth" /\
   c = {| windowMs := 900000; maxAttempts := 5; blockDurationMs := 3600000 |})
  \/ (type = "password_reset" /\
      c = {| windowMs := 3600000; maxAttempts := 3; blockDurationMs := 86400000 |})
  \/ (type = "api_general" /\
      c = {| windowMs := 60000; maxAttempts := 100; blockDurationMs := 300000 |}).
Proof.
  unfold rateLimitConfigs.
  rewrite !lookup_insert_Some, lookup_empty.
  intros [[<- <-] | [_ [[<- <-] | [_ [[<- <-] | [_ H]]]]]];
    [ left | right; left | right; right | discriminate H ];
    split; reflexivity.
Qed.

(** What the three registered configurations have in common. *)
Lemma registered_bounds (type : string) (c : RateLimitConfig) :
  rateLimitConfigs !! type = Some c ->
  0 < windowMs c /\ 3 <= maxAttempts c /\ windowMs c <= blockDurationMs c.
Proof.
  intros H.
  destruct (registered_cases _ _ H) as [[_ ->] | [[_ ->] | [_ ->]]];
    cbn; lia.
Qed.

Lemma js_get_registered (type : string) (c : RateLimitConfig) :
  rateLimitConfigs !! type = Some c -> js_get rateLimitConfigs type = Own c.
Proof. intros H. unfold js_get. rewrite H. reflexivity. Qed.

(** ** Ceiling division *)

Lemma ceil_seconds_mono (x y : Z) : x <= y -> ceil_seconds x <= ceil_seconds y.
Proof.
  intros H. unfold ceil_seconds.
  assert ((- y) / 1000 <= (- x) / 1000) by (apply Z.div_le_mono; lia).
  lia.
Qed.

Lemma ceil_seconds_nonneg (x : Z) : 0 <= x -> 0 <= ceil_seconds x.
Proof. intros H. apply (ceil_seconds_mono 0 x H). Qed.

(** [ceil_seconds x] is the least number of whole seconds that covers [x]
    milliseconds. *)
Lemma ceil_seconds_bounds (x : Z) :
  x <= 1000 * ceil_seconds x < x + 1000.
Proof.
  unfold ceil_seconds.
  pose proof (Z.mul_div_le (- x) 1000 ltac:(lia)).
  pose proof (Z.mul_succ_div_gt (- x) 1000 ltac:(lia)).
  lia.
Qed.

(** The durations of the registered types are whole seconds, so their
    ceilings are exact. *)
Lemma registered_whole_seconds (type : string) (c : RateLimitConfig) :
  rateLimitConfigs !! type = Some c ->
  1000 * ceil_seconds (windowMs c) = windowMs c
  /\ 1000 * ceil_seconds (blockDurationMs c) = blockDurationMs c.
Proof.
  intros H.
  destruct (registered_cases _ _ H) as [[_ ->] | [[_ ->] | [_ ->]]];
    split; reflexivity.
Qed.

(** ** The queries *)

Lemma in_delete_older (cutoff : Z) (s : Store) (r : AttemptRecord) :
  In r (delete_older cutoff s) <-> In r s /\ cutoff <= created_at r.
Proof.
  unfold delete_older. rewrite filter_In.
  rewrite negb_true_iff, Z.ltb_ge. reflexivity.
Qed.

Lemma in_delete_attempts (key : string) (s : Store) (r : AttemptRecord) :
  In r (delete_attempts key s) <->
  In r s /\ ~ (identifier r = key /\ blocked r = false).
Proof.
  unfold delete_attempts. rewrite filter_In.
  rewrite negb_true_iff, andb_false_iff, String.eqb_neq.
  destruct (blocked r); cbn; intuition congruence.
Qed.

Lemma matches_spec (key : string) (b : bool) (from : Z) (r : AttemptRecord) :
  matches key b from r = true <->
  identifier r = key /\ blocked r = b /\ from <= created_at r.
Proof.
  unfold matches.
  rewrite !andb_true_iff, String.eqb_eq, Bool.eqb_true_iff, Z.leb_le.
  tauto.
Qed.

(** Rows at or after the cut-off are the only ones a query with that lower
    bound sees, so it does not matter whether the older ones are still there. *)
Lemma filter_matches_delete_older (key : string) (b : bool) (from cutoff : Z)
    (s : Store) :
  cutoff <= from ->
  List.filter (matches key b from) (delete_older cutoff s)
  = List.filter (matches key b from) s.
Proof.
  intros Hle. unfold delete_older.
  induction s as [| r s IH]; cbn; [reflexivity |].
  destruct (created_at r <? cutoff) eqn:Hold; cbn.
  - assert (matches key b from r = false) as ->; [| exact IH].
    apply not_true_is_false. rewrite matches_spec.
    apply Z.ltb_lt in Hold. lia.
  - rewrite IH. reflexivity.
Qed.

Lemma select_block_delete_older (key : string) (cutoff : Z) (s : Store) :
  select_block key cutoff (delete_older cutoff s) = select_block key cutoff s.
Proof.
  unfold select_block.
  rewrite filter_matches_delete_older by lia. reflexivity.
Qed.

Lemma latest_None (l : list AttemptRecord) : latest l = None <-> l = [].
Proof.
  destruct l as [| r l]; cbn; [tauto |].
  destruct (latest l) as [r' |]; [destruct (created_at r' <=? created_at r) |];
    split; discriminate.
Qed.

Lemma latest_Some (l : list AttemptRecord) (e : AttemptRecord) :
  latest l = Some e ->
  In e l /\ forall r, In r l -> created_at r <= created_at e.
Proof.
  revert e. induction l as [| r l IH]; cbn; intros e H; [discriminate |].
  destruct (latest l) as [r' |] eqn:Hl.
  - destruct (IH r' eq_refl) as [Hin Hmax].
    destruct (created_at r' <=? created_at r) eqn:Hcmp;
      injection H as <-.
    + apply Z.leb_le in Hcmp. split; [left; reflexivity |].
      intros x [<- | Hx]; [lia |]. specialize (Hmax x Hx). lia.
    + apply Z.leb_gt in Hcmp. split; [right; exact Hin |].
      intros x [<- | Hx]; [lia |]. apply Hmax, Hx.
  - injection H as <-. apply latest_None in Hl. subst l.
    split; [left; reflexivity |].
    intros x [<- | []]. lia.
Qed.

(** The block check finds nothing exactly when no row passes its filter. *)
Lemma select_block_None (key : string) (from : Z) (s : Store) :
  select_block key from s = None <->
  forall r, In r s -> ~ (identifier r = key /\ blocked r = true
                         /\ from <= created_at r).
Proof.
  unfold select_block. rewrite latest_None. split.
  - intros Hnil r Hin Hm. apply matches_spec in Hm.
    assert (In r (List.filter (matches key true from) s)) as Hf
      by (apply filter_In; split; assumption).
    rewrite Hnil in Hf. destruct Hf.
  - intros Hnone.
    destruct (List.filter (matches key true from) s) as [| r l] eqn:Hf;
      [reflexivity |].
    assert (In r (List.filter (matches key true from) s)) as Hin
      by (rewrite Hf; left; reflexivity).
    apply filter_In in Hin. destruct Hin as [Hin Hm].
    apply matches_spec in Hm. destruct (Hnone r Hin Hm).
Qed.

(** The block check returns a most recent row among those passing its
    filter. *)
Lemma select_block_Some (key : string) (from : Z) (s : Store) (e : AttemptRecord) :
  select_block key from s = Some e ->
  In e s /\ identifier e = key /\ blocked e = true /\ from <= created_at e
  /\ forall r, In r s -> identifier r = key -> blocked r = true ->
               from <= created_at r -> created_at r <= created_at e.
Proof.
  unfold select_block. intros H.
  destruct (latest_Some _ _ H) as [Hin Hmax].
  apply filter_In in Hin. destruct Hin as [Hin Hm].
  apply matches_spec in Hm. destruct Hm as (Hk & Hb & Hf).
  repeat split; try assumption.
  intros r Hr Hrk Hrb Hrf. apply Hmax.
  apply filter_In. split; [exact Hr |].
  apply matches_spec. tauto.
Qed.

Lemma select_block_exists (key : string) (from : Z) (s : Store) (r : AttemptRecord) :
  In r s -> identifier r = key -> blocked r = true -> from <= created_at r ->
  exists e, select_block key from s = Some e.
Proof.
  intros Hin Hk Hb Hf.
  destruct (select_block key from s) as [e |] eqn:Hs; [eauto |].
  exfalso. rewrite select_block_None in Hs. apply (Hs r Hin). tauto.
Qed.

(** ** One call, step by step *)

(** For a registered type the call never rejects: it returns what the [try]
    block returns, or [fail_open] when the block throws. *)
Lemma rateLimit_registered (type ident : string) (c : RateLimitConfig)
    (success : bool) (now : Z) (f : Faults) (s : Store) :
  rateLimitConfigs !! type = Some c ->
  rateLimit ident (Some success) (Some type) now f s =
  match rateLimit_try c (make_key type ident) success now f s with
  | (s', Ok r) => (s', Returned r)
  | (s', Throw _) => (s', Returned (fail_open c))
  end.
Proof.
  intros H. unfold rateLimit, from_option, id.
  rewrite (js_get_registered _ _ H). unfold try_catch, ret.
  destruct (rateLimit_try c (make_key type ident) success now f s)
    as [s' [r | e]]; reflexivity.
Qed.

(** The [try] block when no store call throws, as a function of the table. *)
Lemma rateLimit_try_no_faults (c : RateLimitConfig) (key : string)
    (success : bool) (now : Z) (s : Store) :
  rateLimit_try c key success now no_faults s =
  let s1 := delete_older (now - blockDurationMs c) s in
  match select_block key (now - blockDurationMs c) s with
  | Some entry =>
      (s1, Ok {| allowed := false;
                 remaining := Num 0;
                 resetTime :=
                   Num (Z.max (ceil_seconds (created_at entry
                                             + blockDurationMs c - now)) 0) |})
  | None =>
      let n := count_attempts key (now - windowMs c) s1 in
      if success then
        (delete_attempts key s1,
         Ok {| allowed := true;
               remaining := Num (Z.max 0 (maxAttempts c - (n + 0)));
               resetTime := Num (ceil_seconds (windowMs c)) |})
      else
        let attempt := {| identifier := key; attempt_count := n + 1;
                          blocked := false; created_at := now |} in
        let block := {| identifier := key; attempt_count := n + 1;
                        blocked := true; created_at := now |} in
        if maxAttempts c <=? n + 1 then
          (insert_row block (insert_row attempt s1),
           Ok {| allowed := false;
                 remaining := Num 0;
                 resetTime := Num (ceil_seconds (blockDurationMs c)) |})
        else
          (insert_row attempt s1,
           Ok {| allowed := true;
                 remaining := Num (Z.max 0 (maxAttempts c - (n + 1)));
                 resetTime := Num (ceil_seconds (windowMs c)) |})
  end.
Proof.
  unfold rateLimit_try, bind, store_call, ret. cbn.
  rewrite select_block_delete_older.
  destruct (select_block key (now - blockDurationMs c) s); [reflexivity |].
  destruct success; cbn; [reflexivity |].
  destruct (maxAttempts c <=? _); reflexivity.
Qed.

(** The [try] block on a blocked key: only the clean-up and the block check
    run. *)
Lemma rateLimit_try_blocked (c : RateLimitConfig) (key : string)
    (success : bool) (now : Z) (f : Faults) (s : Store) (entry : AttemptRecord) :
  cleanup_throws f = false -> blockCheck_throws f = false ->
  select_block key (now - blockDurationMs c) s = Some entry ->
  rateLimit_try c key success now f s =
  (delete_older (now - blockDurationMs c) s,
   Ok {| allowed := false;
         remaining := Num 0;
         resetTime :=
           Num (Z.max (ceil_seconds (created_at entry
                                     + blockDurationMs c - now)) 0) |}).
Proof.
  intros Hc Hb Hsel.
  unfold rateLimit_try, bind, store_call, ret. rewrite Hc, Hb. cbn.
  rewrite select_block_delete_older, Hsel. reflexivity.
Qed.

(** Only store calls throw inside the [try] block. *)
Lemma rateLimit_try_throws (c : RateLimitConfig) (key : string)
    (success : bool) (now : Z) (f : Faults) (s s' : Store) (e : Error) :
  rateLimit_try c key success now f s = (s', Throw e) -> e = StoreError.
Proof.
  unfold rateLimit_try, bind, store_call, ret.
  destruct (cleanup_throws f); [intros [= _ <-]; reflexivity |].
  destruct (blockCheck_throws f); [intros [= _ <-]; reflexivity |].
  destruct (select_block _ _ _); [discriminate |].
  destruct (count_throws f); [intros [= _ <-]; reflexivity |].
  destruct success; cbn.
  - destruct (reset_throws f); [intros [= _ <-]; reflexivity | discriminate].
  - destruct (insertAttempt_throws f); [intros [= _ <-]; reflexivity |].
    destruct (maxAttempts c <=? _); [| discriminate].
    destruct (insertBlock_throws f); [intros [= _ <-]; reflexivity | discriminate].
Qed.

(** Whatever throws, the table after the [try] block is the cleaned table
    with, at most, rows of the call's key added or removed. *)
Lemma rateLimit_try_frame (c : RateLimitConfig) (key : string)
    (success : bool) (now : Z) (f : Faults) (s s' : Store)
    (o : result RateLimitResult) :
  cleanup_throws f = false ->
  rateLimit_try c key success now f s = (s', o) ->
  (forall r, identifier r <> key ->
     (In r s' <-> In r (delete_older (now - blockDurationMs c) s)))
  /\ (forall r, In r s' ->
        In r (delete_older (now - blockDurationMs c) s)
        \/ (identifier r = key /\ created_at r = now)).
Proof.
  intros Hc.
  unfold rateLimit_try, bind, store_call, ret, insert_row. rewrite Hc.
  assert (forall t : Store, (forall r : AttemptRecord, identifier r <> key ->
            (In r t <-> In r t)) /\ (forall r, In r t ->
            In r t \/ (identifier r = key /\ created_at r = now))) as Hsame
    by (intros t; split; intros; tauto).
  destruct (blockCheck_throws f); [intros [= <- _]; apply Hsame |].
  destruct (select_block _ _ _); [intros [= <- _]; apply Hsame |].
  destruct (count_throws f); [intros [= <- _]; apply Hsame |].
  destruct success; cbn.
  - destruct (reset_throws f); intros [= <- _]; [apply Hsame |].
    split; intros r; rewrite in_delete_attempts; tauto.
  - destruct (insertAttempt_throws f); [intros [= <- _]; apply Hsame |].
    destruct (maxAttempts c <=? _).
    + destruct (insertBlock_throws f); intros [= <- _];
        split; intros r; rewrite !in_app_iff; cbn;
        intuition (subst; cbn in *; try tauto; congruence).
    + intros [= <- _].
      split; intros r; rewrite !in_app_iff; cbn;
        intuition (subst; cbn in *; try tauto; congruence).
Qed.

(** ** Fail-open *)

(** C2. For a registered type, whenever a store call inside the [try] block
    throws, the error is caught: the call does not reject, and it returns
    [{allowed: true, remaining: maxAttempts, resetTime: ceil(windowMs/1000)}].
    The only exceptions of the [try] block are those of store calls, the call
    never rejects whatever the store does, and a store whose first call
    already throws leaves the table as it was. *)
Theorem store_error_fails_open (type ident : string) (c : RateLimitConfig)
    (success : bool) (now : Z) (f : Faults) (s : Store) :
  rateLimitConfigs !! type = Some c ->
  (forall s' e,
      rateLimit_try c (make_key type ident) success now f s = (s', Throw e) ->
      e = StoreError /\
      rateLimit ident (Some success) (Some type) now f s =
      (s', Returned {| allowed := true;
                       remaining := Num (maxAttempts c);
                       resetTime := Num (ceil_seconds (windowMs c)) |}))
  /\ (exists s' r,
         rateLimit ident (Some success) (Some type) now f s = (s', Returned r))
  /\ (cleanup_throws f = true ->
      rateLimit ident (Some success) (Some type) now f s =
      (s, Returned {| allowed := true;
                      remaining := Num (maxAttempts c);
                      resetTime := Num (ceil_seconds (windowMs c)) |})).
Proof.
  intros H. rewrite (rateLimit_registered _ _ _ _ _ _ _ H).
  split; [| split].
  - intros s' e Hthrow. split.
    + eapply rateLimit_try_throws; exact Hthrow.
    + rewrite Hthrow. reflexivity.
  - destruct (rateLimit_try c (make_key type ident) success now f s)
      as [s' [r | e]]; eauto.
  - intros Hc. unfold rateLimit_try, bind, store_call. rewrite Hc.
    reflexivity.
Qed.

(** ** The block check *)

(** C3. When the table holds a [blocked] row of the call's key created at or
    after [now - blockDurationMs] (and the clean-up and the block check do
    not throw), the call returns [allowed: false], [remaining: 0] and
    [resetTime = max(0, ceil((created_at + blockDurationMs - now) / 1000))]
    for the most recent such row, whether [success] is true or false: the
    returned [resetTime = z] is the least whole number of seconds that covers
    the milliseconds left on that row, [left <= 1000 * z < left + 1000], and
    is not negative.  The table the call leaves is the cleaned one, so no row
    at or after the cut-off is deleted and the reset on success does not
    run. *)
Theorem active_block_denies (type ident : string) (c : RateLimitConfig)
    (success : bool) (now : Z) (f : Faults) (s : Store) (r : AttemptRecord) :
  rateLimitConfigs !! type = Some c ->
  cleanup_throws f = false -> blockCheck_throws f = false ->
  In r s ->
  identifier r = make_key type ident ->
  blocked r = true ->
  now - blockDurationMs c <= created_at r ->
  exists entry z,
    (In entry s /\ identifier entry = make_key type ident
     /\ blocked entry = true /\ now - blockDurationMs c <= created_at entry)
    /\ (forall r', In r' s -> identifier r' = make_key type ident ->
          blocked r' = true -> now - blockDurationMs c <= created_at r' ->
          created_at r' <= created_at entry)
    /\ rateLimit ident (Some success) (Some type) now f s =
       (delete_older (now - blockDurationMs c) s,
        Returned {| allowed := false;
                    remaining := Num 0;
                    resetTime := Num z |})
    /\ z = Z.max 0 (ceil_seconds (created_at entry + blockDurationMs c - now))
    /\ 0 <= z
    /\ created_at entry + blockDurationMs c - now <= 1000 * z
       < created_at entry + blockDurationMs c - now + 1000
    /\ (forall x, In x s -> now - blockDurationMs c <= created_at x ->
          In x (fst (rateLimit ident (Some success) (Some type) now f s))).
Proof.
  intros H Hc Hb Hin Hk Hbl Hfresh.
  destruct (select_block_exists _ _ _ _ Hin Hk Hbl Hfresh) as [entry Hsel].
  exists entry,
    (Z.max 0 (ceil_seconds (created_at entry + blockDurationMs c - now))).
  destruct (select_block_Some _ _ _ _ Hsel) as (He & Hek & Heb & Hef & Hmax).
  pose proof (ceil_seconds_bounds (created_at entry + blockDurationMs c - now))
    as Hceil.
  assert (rateLimit ident (Some success) (Some type) now f s =
          (delete_older (now - blockDurationMs c) s,
           Returned {| allowed := false;
                       remaining := Num 0;
                       resetTime :=
                         Num (Z.max 0 (ceil_seconds (created_at entry
                                         + blockDurationMs c - now))) |}))
    as Hrun.
  { rewrite (rateLimit_registered _ _ _ _ _ _ _ H).
    rewrite (rateLimit_try_blocked _ _ _ _ _ _ _ Hc Hb Hsel).
    rewrite Z.max_comm. reflexivity. }
  split; [repeat split; assumption |].
  split; [exact Hmax |].
  split; [exact Hrun |].
  split; [reflexivity |].
  split; [lia |].
  split; [lia |].
  intros x Hx Hxf. rewrite Hrun. cbn [fst].
  apply in_delete_older. split; assumption.
Qed.

(** ** Garbage collection *)

(** C5. The clean-up at the start of a call (of a registered type, when the
    clean-up itself does not throw) removes every row older than
    [now - blockDurationMs] of the call's type, whatever its identifier:
    no such row is in the table after the call, and of the rows of other keys
    exactly those at or after the cut-off are. *)
Theorem cleanup_is_global (type ident : string) (c : RateLimitConfig)
    (success : bool) (now : Z) (f : Faults) (s s' : Store) (o : Outcome) :
  rateLimitConfigs !! type = Some c ->
  cleanup_throws f = false ->
  rateLimit ident (Some success) (Some type) now f s = (s', o) ->
  (forall r, In r (delete_older (now - blockDurationMs c) s) <->
             In r s /\ now - blockDurationMs c <= created_at r)
  /\ (forall r, In r s -> created_at r < now - blockDurationMs c -> ~ In r s')
  /\ (forall r, identifier r <> make_key type ident ->
        (In r s' <-> In r s /\ now - blockDurationMs c <= created_at r)).
Proof.
  intros H Hc Hrun.
  rewrite (rateLimit_registered _ _ _ _ _ _ _ H) in Hrun.
  destruct (rateLimit_try c (make_key type ident) success now f s)
    as [s1 o1] eqn:Htry.
  assert (s1 = s') as -> by (destruct o1; injection Hrun as <- _; reflexivity).
  destruct (rateLimit_try_frame _ _ _ _ _ _ _ _ Hc Htry) as [Hother Hall].
  pose proof (registered_bounds _ _ H) as (Hw & _ & Hwb).
  split; [intros r; apply in_delete_older |].
  split.
  - intros r Hin Hold Hin'.
    destruct (Hall r Hin') as [Hkept | [_ Hnow]].
    + apply in_delete_older in Hkept. lia.
    + lia.
  - intros r Hne. rewrite (Hother r Hne). apply in_delete_older.
Qed.

(** ** The wrappers *)

(** C8. [rateLimitAuth] returns what [rateLimit] returns on the same
    arguments, an omitted type being ["auth"], and [rateLimitAPI] returns
    what [rateLimit] returns for the type ["api_general"]. *)
Theorem wrappers_are_rateLimit (ident : string) (success : option bool)
    (type : option string) (now : Z) (f : Faults) (s : Store) :
  rateLimitAuth ident success type now f s
  = rateLimit ident success type now f s
  /\ rateLimitAuth ident success None now f s
     = rateLimit ident success (Some "auth") now f s
  /\ rateLimitAPI ident success now f s
     = rateLimit ident success (Some "api_general") now f s.
Proof.
  unfold rateLimitAuth, rateLimitAPI.
  destruct success, type; repeat split; reflexivity.
Qed.

(** ** Unknown types *)

Lemma js_get_NotFound (type : string) :
  rateLimitConfigs !! type = None ->
  ~ In type Object_prototype_names ->
  js_get rateLimitConfigs type = NotFound.
Proof.
  intros Hnone Hnot. unfold js_get. rewrite Hnone.
  destruct (existsb (String.eqb type) Object_prototype_names) eqn:Hex;
    [| reflexivity].
  apply existsb_exists in Hex. destruct Hex as (x & Hx & Heq).
  apply String.eqb_eq in Heq. subst x. contradiction.
Qed.

(** C9, as stated, fails: ["toString"] is not a key of the configuration
    map, yet the call does not reject and returns [allowed: true]. *)
Lemma inherited_type_is_allowed :
  rateLimitConfigs !! "toString" = None
  /\ rateLimit "ip1" (Some false) (Some "toString") 1700000000000 no_faults []
     = ([], Returned {| allowed := true;
                        remaining := Undefined;
                        resetTime := NaN |})
  /\ ~ (exists e,
          snd (rateLimit "ip1" (Some false) (Some "toString")
                 1700000000000 no_faults []) = Rejected e).
Proof.
  split; [reflexivity |]. split; [reflexivity |].
  intros [e He]. discriminate He.
Qed.

(** C9, amended. For a type that is neither a key of the configuration map
    nor the name of a property of [Object.prototype], the lookup yields
    [undefined] and the call rejects with the [TypeError] raised before the
    [try] block: no store call is made, the table is unchanged, and no
    result, fail-open or other, is returned. *)
Theorem unknown_type_rejects (type ident : string) (success : option bool)
    (now : Z) (f : Faults) (s : Store) :
  rateLimitConfigs !! type = None ->
  ~ In type Object_prototype_names ->
  rateLimit ident success (Some type) now f s = (s, Rejected TypeError)
  /\ forall r, snd (rateLimit ident success (Some type) now f s) <> Returned r.
Proof.
  intros Hnone Hnot.
  assert (rateLimit ident success (Some type) now f s = (s, Rejected TypeError))
    as Hrun.
  { unfold rateLimit, from_option, id.
    rewrite (js_get_NotFound _ Hnone Hnot). reflexivity. }
  split; [exact Hrun |].
  intros r. rewrite Hrun. discriminate.
Qed.

(** ** Range of the results *)

Lemma rateLimit_try_range (c : RateLimitConfig) (key : string)
    (success : bool) (now : Z) (f : Faults) (s s' : Store) (r : RateLimitResult) :
  0 <= windowMs c -> 0 <= blockDurationMs c ->
  rateLimit_try c key success now f s = (s', Ok r) ->
  exists a b, remaining r = Num a /\ resetTime r = Num b /\ 0 <= a /\ 0 <= b.
Proof.
  intros Hw Hb.
  pose proof (ceil_seconds_nonneg _ Hw) as Hcw.
  pose proof (ceil_seconds_nonneg _ Hb) as Hcb.
  unfold rateLimit_try, bind, store_call, ret.
  destruct (cleanup_throws f); [discriminate |].
  destruct (blockCheck_throws f); [discriminate |].
  destruct (select_block _ _ _) as [entry |].
  { intros [= _ <-]. cbn. eexists _, _. repeat split; lia. }
  destruct (count_throws f); [discriminate |].
  destruct success; cbn.
  - destruct (reset_throws f); [discriminate |].
    intros [= _ <-]. cbn. eexists _, _. repeat split; lia.
  - destruct (insertAttempt_throws f); [discriminate |].
    destruct (maxAttempts c <=? _).
    + destruct (insertBlock_throws f); [discriminate |].
      intros [= _ <-]. cbn. eexists _, _. repeat split; lia.
    + intros [= _ <-]. cbn. eexists _, _. repeat split; lia.
Qed.

(** C10. For a registered type (given explicitly or by default), whatever
    the identifier, [success], the time, the table and the store calls that
    throw, the call returns a result, and its [remaining] and [resetTime] are
    numbers that are not negative. *)
Theorem result_fields_nonneg (ident : string) (success : option bool)
    (type : option string) (c : RateLimitConfig) (now : Z) (f : Faults)
    (s : Store) :
  rateLimitConfigs !! default "auth" type = Some c ->
  exists s' r a b,
    rateLimit ident success type now f s = (s', Returned r)
    /\ remaining r = Num a /\ resetTime r = Num b
    /\ 0 <= a /\ 0 <= b.
Proof.
  intros H.
  pose proof (registered_bounds _ _ H) as (Hw & Hn & Hwb).
  assert (rateLimit ident success type now f s
          = rateLimit ident (Some (default true success))
              (Some (default "auth" type)) now f s) as ->
    by (destruct success, type; reflexivity).
  rewrite (rateLimit_registered _ _ _ _ _ _ _ H).
  destruct (rateLimit_try c _ (default true success) now f s)
    as [s' [r | e]] eqn:Htry.
  - assert (0 <= windowMs c) as Hw0 by lia.
    assert (0 <= blockDurationMs c) as Hb0 by lia.
    destruct (rateLimit_try_range _ _ _ _ _ _ _ _ Hw0 Hb0 Htry)
      as (a & b & Ha & Hb & Hage & Hbge).
    exists s', r, a, b. repeat split; assumption.
  - exists s', (fail_open c), (maxAttempts c), (ceil_seconds (windowMs c)).
    repeat split; [lia |].
    apply ceil_seconds_nonneg. lia.
Qed.

(** ** Rows of one key *)

Lemma filter_none {A : Type} (p : A -> bool) (l : list A) :
  (forall x, In x l -> p x = false) -> List.filter p l = [].
Proof.
  induction l as [| x l IH]; cbn; intros H; [reflexivity |].
  rewrite (H x (or_introl eq_refl)). apply IH.
  intros y Hy. apply H. right. exact Hy.
Qed.

Lemma filter_all {A : Type} (p : A -> bool) (l : list A) :
  (forall x, In x l -> p x = true) -> List.filter p l = l.
Proof.
  induction l as [| x l IH]; cbn; intros H; [reflexivity |].
  rewrite (H x (or_introl eq_refl)). f_equal. apply IH.
  intros y Hy. apply H. right. exact Hy.
Qed.

Lemma no_rows_no_block (key : string) (s : Store) :
  no_rows key s -> no_block key s.
Proof. intros H r Hin Hk. destruct (H r Hin Hk). Qed.

Lemma no_block_select (key : string) (from : Z) (s : Store) :
  no_block key s -> select_block key from s = None.
Proof.
  intros H. apply select_block_None. intros r Hin (Hk & Hb & _).
  rewrite (H r Hin Hk) in Hb. discriminate.
Qed.

Lemma no_rows_count (key : string) (from : Z) (s : Store) :
  no_rows key s -> count_attempts key from s = 0.
Proof.
  intros H. unfold count_attempts. rewrite filter_none; [reflexivity |].
  intros r Hin. apply not_true_is_false. rewrite matches_spec.
  intros (Hk & _). exact (H r Hin Hk).
Qed.

Lemma no_rows_delete_older (key : string) (cutoff : Z) (s : Store) :
  no_rows key s -> no_rows key (delete_older cutoff s).
Proof. intros H r Hin. apply in_delete_older in Hin. apply H, Hin. Qed.

Lemma no_rows_delete_attempts (key : string) (s : Store) :
  no_rows key s -> delete_attempts key s = s.
Proof.
  intros H. unfold delete_attempts. apply filter_all.
  intros r Hin. apply negb_true_iff, andb_false_iff. left.
  apply String.eqb_neq, H, Hin.
Qed.

(** ** A success call on a key without rows *)

(** C7, as stated, fails: the key ["auth_ip1"] has no row, yet the call
    deletes the old row of another key, so the table is not left as it
    was. *)
Lemma success_call_changes_table :
  let s := [ {| identifier := "api_general_ip2"; attempt_count := 1;
                blocked := false; created_at := 1700000000000 |} ] in
  no_rows (make_key "auth" "ip1") s
  /\ rateLimit "ip1" (Some true) (Some "auth") 1700003600001 no_faults s
     = ([], Returned {| allowed := true; remaining := Num 5;
                        resetTime := Num 900 |})
  /\ fst (rateLimit "ip1" (Some true) (Some "auth") 1700003600001 no_faults s)
     <> s.
Proof.
  cbn zeta. split; [| split].
  - intros r [<- | []]. cbn. discriminate.
  - reflexivity.
  - discriminate.
Qed.

(** C7, amended. A call with [success = true] for a key that has no row in
    the table (no store call throwing) returns
    [{allowed: true, remaining: maxAttempts, resetTime: ceil(windowMs/1000)}]
    and changes the table by the clean-up only: the table it leaves is the
    old one without the rows older than [now - blockDurationMs], and is the
    old one when there is no such row. *)
Theorem success_without_rows (type ident : string) (c : RateLimitConfig)
    (now : Z) (s : Store) :
  rateLimitConfigs !! type = Some c ->
  no_rows (make_key type ident) s ->
  rateLimit ident (Some true) (Some type) now no_faults s =
  (delete_older (now - blockDurationMs c) s,
   Returned {| allowed := true;
               remaining := Num (maxAttempts c);
               resetTime := Num (ceil_seconds (windowMs c)) |})
  /\ ((forall r, In r s -> now - blockDurationMs c <= created_at r) ->
      fst (rateLimit ident (Some true) (Some type) now no_faults s) = s).
Proof.
  intros H Hnone.
  pose proof (registered_bounds _ _ H) as (Hw & Hn & Hwb).
  assert (rateLimit ident (Some true) (Some type) now no_faults s =
          (delete_older (now - blockDurationMs c) s,
           Returned {| allowed := true;
                       remaining := Num (maxAttempts c);
                       resetTime := Num (ceil_seconds (windowMs c)) |}))
    as Hrun.
  { rewrite (rateLimit_registered _ _ _ _ _ _ _ H).
    rewrite rateLimit_try_no_faults. cbn zeta.
    rewrite (no_block_select _ _ _ (no_rows_no_block _ _ Hnone)).
    rewrite (no_rows_count _ _ _ (no_rows_delete_older _ _ _ Hnone)).
    rewrite (no_rows_delete_attempts _ _ (no_rows_delete_older _ _ _ Hnone)).
    do 4 f_equal. lia. }
  split; [exact Hrun |].
  intros Hfresh. rewrite Hrun. cbn [fst].
  unfold delete_older. apply filter_all.
  intros r Hin. apply negb_true_iff, Z.ltb_ge, Hfresh, Hin.
Qed.

(** ** Reset time of a block *)

(** C6. For a registered type: the call that creates a block (a failing
    call on a key that is not blocked and whose count reaches the ceiling)
    returns [resetTime = ceil(blockDurationMs / 1000)], which is
    [blockDurationMs] in whole seconds ([1000 * resetTime = blockDurationMs]),
    and inserts the block row; two later calls at [now1 <= now2] whose block
    check finds the same row return reset times [z1 >= z2 >= 0], each the
    least whole number of seconds that covers the milliseconds left on the
    row at its time; and a call at or after the creation of its block row
    returns at most [ceil(blockDurationMs / 1000)]. *)
Theorem block_reset_time (type ident : string) (c : RateLimitConfig) :
  rateLimitConfigs !! type = Some c ->
  (forall now s,
      select_block (make_key type ident) (now - blockDurationMs c) s = None ->
      maxAttempts c <=
        count_attempts (make_key type ident) (now - windowMs c)
          (delete_older (now - blockDurationMs c) s) + 1 ->
      exists s' n z,
        rateLimit ident (Some false) (Some type) now no_faults s =
        (s', Returned {| allowed := false;
                         remaining := Num 0;
                         resetTime := Num z |})
        /\ z = ceil_seconds (blockDurationMs c)
        /\ 1000 * z = blockDurationMs c
        /\ In {| identifier := make_key type ident; attempt_count := n;
                 blocked := true; created_at := now |} s')
  /\ (forall entry now1 now2 success1 success2 f1 f2 s1 s2,
         cleanup_throws f1 = false -> blockCheck_throws f1 = false ->
         cleanup_throws f2 = false -> blockCheck_throws f2 = false ->
         select_block (make_key type ident) (now1 - blockDurationMs c) s1
           = Some entry ->
         select_block (make_key type ident) (now2 - blockDurationMs c) s2
           = Some entry ->
         now1 <= now2 ->
         exists z1 z2,
           snd (rateLimit ident (Some success1) (Some type) now1 f1 s1)
             = Returned {| allowed := false; remaining := Num 0;
                           resetTime := Num z1 |}
           /\ snd (rateLimit ident (Some success2) (Some type) now2 f2 s2)
              = Returned {| allowed := false; remaining := Num 0;
                            resetTime := Num z2 |}
           /\ 0 <= z2 /\ z2 <= z1
           /\ created_at entry + blockDurationMs c - now1 <= 1000 * z1
              < created_at entry + blockDurationMs c - now1 + 1000
           /\ created_at entry + blockDurationMs c - now2 <= 1000 * z2
              < created_at entry + blockDurationMs c - now2 + 1000
           /\ (created_at entry <= now1 ->
               z1 <= ceil_seconds (blockDurationMs c)
               /\ 1000 * z1 <= blockDurationMs c)).
Proof.
  intros H.
  pose proof (registered_bounds _ _ H) as (Hw & Hn & Hwb).
  pose proof (registered_whole_seconds _ _ H) as [_ Hwhole].
  split.
  - intros now s Hsel Hcount.
    rewrite (rateLimit_registered _ _ _ _ _ _ _ H).
    rewrite rateLimit_try_no_faults. cbn zeta. rewrite Hsel.
    apply Z.leb_le in Hcount. rewrite Hcount.
    eexists _, _, _. split; [reflexivity |].
    split; [reflexivity |]. split; [exact Hwhole |].
    unfold insert_row. rewrite !in_app_iff. right. left. reflexivity.
  - intros entry now1 now2 success1 success2 f1 f2 s1 s2
      Hc1 Hb1 Hc2 Hb2 Hsel1 Hsel2 Hle.
    destruct (select_block_Some _ _ _ _ Hsel1) as (_ & _ & _ & Hfresh1 & _).
    destruct (select_block_Some _ _ _ _ Hsel2) as (_ & _ & _ & Hfresh2 & _).
    rewrite !(rateLimit_registered _ _ _ _ _ _ _ H).
    rewrite (rateLimit_try_blocked _ _ _ _ _ _ _ Hc1 Hb1 Hsel1).
    rewrite (rateLimit_try_blocked _ _ _ _ _ _ _ Hc2 Hb2 Hsel2).
    cbn [snd]. eexists _, _.
    split; [reflexivity |]. split; [reflexivity |].
    pose proof (ceil_seconds_mono
                  (created_at entry + blockDurationMs c - now2)
                  (created_at entry + blockDurationMs c - now1)
                  ltac:(lia)) as Hmono.
    pose proof (ceil_seconds_bounds
                  (created_at entry + blockDurationMs c - now1)) as Hceil1.
    pose proof (ceil_seconds_bounds
                  (created_at entry + blockDurationMs c - now2)) as Hceil2.
    split; [lia |]. split; [lia |]. split; [lia |]. split; [lia |].
    intros Hafter.
    pose proof (ceil_seconds_mono
                  (created_at entry + blockDurationMs c - now1)
                  (blockDurationMs c) ltac:(lia)) as Hbound.
    pose proof (ceil_seconds_nonneg (blockDurationMs c) ltac:(lia)).
    lia.
Qed.

(** ** Calls on a key that is not blocked *)

Section Unblocked.
Variables (type ident : string) (c : RateLimitConfig).
Hypothesis registered : rateLimitConfigs !! type = Some c.

Let key := make_key type ident.

(** A failing call below the ceiling records the attempt and allows. *)
Lemma fail_call_allowed (now : Z) (s : Store) :
  no_block key s ->
  let s1 := delete_older (now - blockDurationMs c) s in
  let n := count_attempts key (now - windowMs c) s1 in
  n + 1 < maxAttempts c ->
  rateLimit ident (Some false) (Some type) now no_faults s =
  (insert_row {| identifier := key; attempt_count := n + 1;
                 blocked := false; created_at := now |} s1,
   Returned {| allowed := true;
               remaining := Num (maxAttempts c - (n + 1));
               resetTime := Num (ceil_seconds (windowMs c)) |}).
Proof.
  intros Hnb s1 n Hlt.
  rewrite (rateLimit_registered _ _ _ _ _ _ _ registered).
  rewrite rateLimit_try_no_faults. cbn zeta. fold key.
  rewrite (no_block_select _ _ _ Hnb). fold s1. fold n.
  assert ((maxAttempts c <=? n + 1) = false) as -> by (apply Z.leb_gt; lia).
  do 4 f_equal. lia.
Qed.

(** A failing call that reaches the ceiling records the attempt, inserts
    the block row and denies. *)
Lemma fail_call_blocks (now : Z) (s : Store) :
  no_block key s ->
  let s1 := delete_older (now - blockDurationMs c) s in
  let n := count_attempts key (now - windowMs c) s1 in
  maxAttempts c <= n + 1 ->
  rateLimit ident (Some false) (Some type) now no_faults s =
  (insert_row {| identifier := key; attempt_count := n + 1;
                 blocked := true; created_at := now |}
     (insert_row {| identifier := key; attempt_count := n + 1;
                    blocked := false; created_at := now |} s1),
   Returned {| allowed := false;
               remaining := Num 0;
               resetTime := Num (ceil_seconds (blockDurationMs c)) |}).
Proof.
  intros Hnb s1 n Hge.
  rewrite (rateLimit_registered _ _ _ _ _ _ _ registered).
  rewrite rateLimit_try_no_faults. cbn zeta. fold key.
  rewrite (no_block_select _ _ _ Hnb). fold s1. fold n.
  assert ((maxAttempts c <=? n + 1) = true) as -> by (apply Z.leb_le; lia).
  reflexivity.
Qed.

(** A success call deletes the attempts of the key and allows. *)
Lemma success_call_resets (now : Z) (s : Store) :
  select_block key (now - blockDurationMs c) s = None ->
  let s1 := delete_older (now - blockDurationMs c) s in
  let n := count_attempts key (now - windowMs c) s1 in
  rateLimit ident (Some true) (Some type) now no_faults s =
  (delete_attempts key s1,
   Returned {| allowed := true;
               remaining := Num (Z.max 0 (maxAttempts c - n));
               resetTime := Num (ceil_seconds (windowMs c)) |}).
Proof.
  intros Hsel s1 n.
  rewrite (rateLimit_registered _ _ _ _ _ _ _ registered).
  rewrite rateLimit_try_no_faults. cbn zeta. fold key.
  rewrite Hsel. fold s1. fold n.
  do 5 f_equal. lia.
Qed.
End Unblocked.

Lemma no_block_delete_older (key : string) (cutoff : Z) (s : Store) :
  no_block key s -> no_block key (delete_older cutoff s).
Proof. intros H r Hin. apply in_delete_older in Hin. apply H, Hin. Qed.

Lemma no_block_insert (key : string) (r : AttemptRecord) (s : Store) :
  no_block key s -> blocked r = false -> no_block key (insert_row r s).
Proof.
  intros H Hr x Hin Hk. unfold insert_row in Hin.
  apply in_app_iff in Hin. destruct Hin as [Hin | [<- | []]];
    [apply (H x Hin Hk) | exact Hr].
Qed.

Lemma no_block_delete_attempts (key : string) (s : Store) :
  no_block key s -> no_rows key (delete_attempts key s).
Proof.
  intros H r Hin Hk. apply in_delete_attempts in Hin.
  destruct Hin as [Hin Hnot]. apply Hnot. split; [exact Hk |].
  apply (H r Hin Hk).
Qed.

Lemma key_rows_no_rows (key : string) (s : Store) :
  no_rows key s -> key_rows key s = [].
Proof.
  intros H. apply filter_none. intros r Hin.
  apply String.eqb_neq, H, Hin.
Qed.

Lemma key_rows_insert (key : string) (r : AttemptRecord) (s : Store) :
  identifier r = key ->
  key_rows key (insert_row r s) = (key_rows key s ++ [r])%list.
Proof.
  intros Hk. unfold key_rows, insert_row. rewrite List.filter_app. cbn.
  rewrite (proj2 (String.eqb_eq _ _) Hk). reflexivity.
Qed.

Lemma key_rows_delete_older_length (key : string) (cutoff : Z) (s : Store) :
  (List.length (key_rows key (delete_older cutoff s))
   <= List.length (key_rows key s))%nat.
Proof.
  unfold key_rows, delete_older.
  induction s as [| r s IH]; cbn; [lia |].
  destruct (created_at r <? cutoff); cbn;
    destruct (String.eqb (identifier r) key); cbn; lia.
Qed.

Lemma key_rows_delete_older (key : string) (cutoff : Z) (s : Store) :
  (forall r, In r s -> identifier r = key -> cutoff <= created_at r) ->
  key_rows key (delete_older cutoff s) = key_rows key s.
Proof.
  unfold key_rows, delete_older.
  induction s as [| r s IH]; cbn; intros H; [reflexivity |].
  assert (forall x, In x s -> identifier x = key -> cutoff <= created_at x)
    as Hs by (intros x Hx; apply H; right; exact Hx).
  destruct (String.eqb (identifier r) key) eqn:Hk.
  - apply String.eqb_eq in Hk.
    pose proof (H r (or_introl eq_refl) Hk) as Hr.
    assert ((created_at r <? cutoff) = false) as -> by (apply Z.ltb_ge; lia).
    cbn. apply String.eqb_eq in Hk. rewrite Hk, (IH Hs). reflexivity.
  - destruct (created_at r <? cutoff); cbn; [| rewrite Hk]; apply IH, Hs.
Qed.

(** The count never exceeds the number of rows of the key. *)
Lemma count_attempts_le (key : string) (from : Z) (s : Store) :
  0 <= count_attempts key from s <= Z.of_nat (List.length (key_rows key s)).
Proof.
  unfold count_attempts, key_rows. split; [lia |].
  apply inj_le.
  induction s as [| r s IH]; cbn; [lia |].
  unfold matches at 1.
  destruct (String.eqb (identifier r) key); cbn; [| exact IH].
  destruct (Bool.eqb (blocked r) false && (from <=? created_at r)); cbn; lia.
Qed.

(** The count is the number of rows of the key when they are all attempts
    inside the window. *)
Lemma count_attempts_all (key : string) (from : Z) (s : Store) :
  no_block key s ->
  (forall r, In r s -> identifier r = key -> from <= created_at r) ->
  count_attempts key from s = Z.of_nat (List.length (key_rows key s)).
Proof.
  intros Hnb Hin. unfold count_attempts, key_rows. do 2 f_equal.
  apply filter_ext_in. intros r Hr. unfold matches.
  destruct (String.eqb (identifier r) key) eqn:Hk; [| reflexivity].
  apply String.eqb_eq in Hk.
  rewrite (Hnb r Hr Hk). cbn.
  apply Z.leb_le, Hin; assumption.
Qed.

(** ** Consecutive failures *)

Section Failures.
Variables (type ident : string) (c : RateLimitConfig).
Hypothesis registered : rateLimitConfigs !! type = Some c.

Let key := make_key type ident.

(** The outcome of a failing call that is allowed with [k] failures on
    record, and of the one that blocks. *)
Let allow (k : nat) : Outcome :=
  Returned {| allowed := true;
              remaining := Num (maxAttempts c - Z.of_nat k);
              resetTime := Num (ceil_seconds (windowMs c)) |}.
Let deny : Outcome :=
  Returned {| allowed := false;
              remaining := Num 0;
              resetTime := Num (ceil_seconds (blockDurationMs c)) |}.

(** The run from a table that holds [j] attempts of the key, all of them
    inside the window of every call to come. *)
Lemma run_failures (ts : list Z) :
  forall (j : nat) (s : Store),
    no_block key s ->
    List.length (key_rows key s) = j ->
    (forall r, In r s -> identifier r = key ->
       forall t, In t ts -> t - created_at r <= windowMs c) ->
    (forall t t', In t ts -> In t' ts -> t' - t <= windowMs c) ->
    ts <> [] ->
    Z.of_nat j + Z.of_nat (List.length ts) = maxAttempts c ->
    exists s',
      run_calls ident type (map (pair false) ts) s =
      ((map allow (seq (S j) (List.length ts - 1)) ++ [deny])%list, s')
      /\ In {| identifier := key; attempt_count := maxAttempts c;
               blocked := true; created_at := List.last ts 0 |} s'.
Proof.
  pose proof (registered_bounds _ _ registered) as (Hw & Hn & Hwb).
  induction ts as [| t rest IH]; intros j s Hnb Hlen Hrows Hpair Hne Hsum;
    [contradiction |].
  assert (count_attempts key (t - windowMs c)
            (delete_older (t - blockDurationMs c) s) = Z.of_nat j) as Hcount.
  { unfold count_attempts.
    rewrite filter_matches_delete_older by lia.
    fold (count_attempts key (t - windowMs c) s).
    rewrite count_attempts_all, Hlen; [reflexivity | exact Hnb |].
    intros r Hr Hk. specialize (Hrows r Hr Hk t (or_introl eq_refl)). lia. }
  assert (key_rows key (delete_older (t - blockDurationMs c) s)
          = key_rows key s) as Hkeep.
  { apply key_rows_delete_older. intros r Hr Hk.
    specialize (Hrows r Hr Hk t (or_introl eq_refl)). lia. }
  cbn [map run_calls].
  destruct rest as [| t2 rest].
  - (* the last call: the ceiling is reached *)
    cbn in Hsum.
    rewrite (fail_call_blocks _ _ _ registered t s Hnb)
      by (fold key; rewrite Hcount; lia).
    fold key. rewrite Hcount. cbn.
    eexists. split; [reflexivity |].
    unfold insert_row. rewrite !in_app_iff. right. left.
    f_equal. lia.
  - (* an earlier call: allowed, and one more attempt on record *)
    assert (Z.of_nat j + 1 < maxAttempts c) as Hbelow
      by (cbn [List.length] in Hsum; lia).
    rewrite (fail_call_allowed _ _ _ registered t s Hnb)
      by (fold key; rewrite Hcount; exact Hbelow).
    fold key. rewrite Hcount.
    set (s1 := insert_row _ _).
    destruct (IH (S j) s1) as (s' & Hrun & Hblock).
    + apply no_block_insert; [| reflexivity].
      apply no_block_delete_older, Hnb.
    + unfold s1. rewrite key_rows_insert by reflexivity.
      rewrite length_app, Hkeep, Hlen. cbn. lia.
    + intros r Hr Hk t' Ht'. unfold s1, insert_row in Hr.
      apply in_app_iff in Hr. destruct Hr as [Hr | [<- | []]].
      * apply in_delete_older in Hr. destruct Hr as [Hr _].
        apply (Hrows r Hr Hk). right. exact Ht'.
      * cbn. apply Hpair; [left; reflexivity | right; exact Ht'].
    + intros x y Hx Hy. apply Hpair; right; assumption.
    + discriminate.
    + cbn [List.length] in Hsum |- *. lia.
    + rewrite Hrun. exists s'. split; [| exact Hblock].
      cbn [List.length]. rewrite !Nat.sub_succ, !Nat.sub_0_r.
      cbn [seq map app]. unfold allow at 2.
      replace (Z.of_nat j + 1) with (Z.of_nat (S j)) by lia.
      reflexivity.
Qed.
End Failures.

(** C1. For a registered type with [maxAttempts = N] and a key without rows:
    [N] consecutive failing calls, all inside one window (any two of their
    times at most [windowMs] apart; the rows they write are then younger
    than [blockDurationMs], so the clean-up keeps them), return, for the
    call number [k] with [1 <= k <= N-1], [allowed: true] with
    [remaining = N - k], and for the call number [N],
    [{allowed: false, remaining: 0, resetTime: ceil(blockDurationMs/1000)}],
    after which the table holds a block row of the key written at the time
    of that call. *)
Theorem consecutive_failures (type ident : string) (c : RateLimitConfig)
    (ts : list Z) (s : Store) :
  rateLimitConfigs !! type = Some c ->
  no_rows (make_key type ident) s ->
  Z.of_nat (List.length ts) = maxAttempts c ->
  (forall t t', In t ts -> In t' ts -> t' - t <= windowMs c) ->
  exists s',
    run_calls ident type (map (pair false) ts) s =
    ((map (fun k =>
             Returned {| allowed := true;
                         remaining := Num (maxAttempts c - Z.of_nat k);
                         resetTime := Num (ceil_seconds (windowMs c)) |})
          (seq 1 (List.length ts - 1))
      ++ [Returned {| allowed := false;
                      remaining := Num 0;
                      resetTime := Num (ceil_seconds (blockDurationMs c)) |}])%list,
     s')
    /\ In {| identifier := make_key type ident;
             attempt_count := maxAttempts c;
             blocked := true;
             created_at := List.last ts 0 |} s'.
Proof.
  intros H Hnone Hlen Hpair.
  pose proof (registered_bounds _ _ H) as (Hw & Hn & Hwb).
  apply (run_failures type ident c H ts 0 s).
  - apply no_rows_no_block, Hnone.
  - rewrite (key_rows_no_rows _ _ Hnone). reflexivity.
  - intros r Hr Hk. destruct (Hnone r Hr Hk).
  - exact Hpair.
  - intros ->. cbn in Hlen. lia.
  - lia.
Qed.

(** ** Reset on success *)

(** C4. For a registered type: a call with [success = true] on a key that is
    not blocked leaves the cleaned table without the attempts of the key, so
    no [blocked = false] row of the key remains; and from a key without rows,
    the calls fail, fail, succeed, fail (at any times) are all allowed, the
    last one with [remaining = maxAttempts - 1], as the first one. *)
Theorem success_resets_counter (type ident : string) (c : RateLimitConfig) :
  rateLimitConfigs !! type = Some c ->
  (forall now s,
      select_block (make_key type ident) (now - blockDurationMs c) s = None ->
      exists r,
        rateLimit ident (Some true) (Some type) now no_faults s =
        (delete_attempts (make_key type ident)
           (delete_older (now - blockDurationMs c) s), Returned r)
        /\ allowed r = true
        /\ forall x,
             In x (fst (rateLimit ident (Some true) (Some type) now no_faults s)) ->
             identifier x = make_key type ident -> blocked x = true)
  /\ (forall t1 t2 t3 t4 s,
         no_rows (make_key type ident) s ->
         exists a2 a3 s',
           run_calls ident type
             [(false, t1); (false, t2); (true, t3); (false, t4)] s =
           ([ Returned {| allowed := true;
                          remaining := Num (maxAttempts c - 1);
                          resetTime := Num (ceil_seconds (windowMs c)) |};
              Returned {| allowed := true;
                          remaining := Num a2;
                          resetTime := Num (ceil_seconds (windowMs c)) |};
              Returned {| allowed := true;
                          remaining := Num a3;
                          resetTime := Num (ceil_seconds (windowMs c)) |};
              Returned {| allowed := true;
                          remaining := Num (maxAttempts c - 1);
                          resetTime := Num (ceil_seconds (windowMs c)) |} ],
            s')
           /\ maxAttempts c - 2 <= a2 <= maxAttempts c - 1).
Proof.
  intros H.
  pose proof (registered_bounds _ _ H) as (Hw & Hn & Hwb).
  split.
  - intros now s Hsel.
    rewrite (success_call_resets _ _ _ H now s Hsel). cbn [fst].
    eexists. split; [reflexivity |]. split; [reflexivity |].
    intros x Hx Hk. apply in_delete_attempts in Hx.
    destruct Hx as [_ Hnot].
    destruct (blocked x); [reflexivity |].
    exfalso. apply Hnot. split; [exact Hk | reflexivity].
  - intros t1 t2 t3 t4 s Hnone.
    set (key := make_key type ident) in *.
    cbn [run_calls].
    (* first failure *)
    pose proof (no_rows_count key (t1 - windowMs c) _
                  (no_rows_delete_older key (t1 - blockDurationMs c) s Hnone))
      as Hn1.
    rewrite (fail_call_allowed _ _ _ H t1 s (no_rows_no_block _ _ Hnone))
      by (fold key; rewrite Hn1; lia).
    fold key. rewrite Hn1.
    set (s1 := insert_row _ (delete_older (t1 - blockDurationMs c) s)).
    assert (no_block key s1) as Hnb1.
    { apply no_block_insert; [| reflexivity].
      apply no_block_delete_older, no_rows_no_block, Hnone. }
    assert (List.length (key_rows key s1) = 1%nat) as Hlen1.
    { unfold s1. rewrite key_rows_insert by reflexivity.
      rewrite key_rows_no_rows by (apply no_rows_delete_older, Hnone).
      reflexivity. }
    (* second failure *)
    pose proof (count_attempts_le key (t2 - windowMs c)
                  (delete_older (t2 - blockDurationMs c) s1)) as Hn2.
    pose proof (key_rows_delete_older_length key (t2 - blockDurationMs c) s1)
      as Hlen2.
    rewrite (fail_call_allowed _ _ _ H t2 s1 Hnb1) by (fold key; lia).
    fold key.
    set (n2 := count_attempts key (t2 - windowMs c) _) in *.
    set (s2 := insert_row _ (delete_older (t2 - blockDurationMs c) s1)).
    assert (no_block key s2) as Hnb2.
    { apply no_block_insert; [| reflexivity].
      apply no_block_delete_older, Hnb1. }
    (* success *)
    rewrite (success_call_resets _ _ _ H t3 s2 (no_block_select _ _ _ Hnb2)).
    fold key.
    set (s3 := delete_attempts key (delete_older (t3 - blockDurationMs c) s2)).
    assert (no_rows key s3) as Hnone3.
    { apply no_block_delete_attempts, no_block_delete_older, Hnb2. }
    (* third failure *)
    pose proof (no_rows_count key (t4 - windowMs c) _
                  (no_rows_delete_older key (t4 - blockDurationMs c) s3 Hnone3))
      as Hn4.
    rewrite (fail_call_allowed _ _ _ H t4 s3 (no_rows_no_block _ _ Hnone3))
      by (fold key; rewrite Hn4; lia).
    fold key. rewrite Hn4.
    eexists _, _, _. split; [reflexivity |]. lia.
Qed.

(** * The theorems at concrete inputs *)

(** Three failing password-reset attempts within two seconds. *)
Lemma consecutive_failures_witness :
  exists s',
    run_calls "ip1" "password_reset"
      [(false, 1700000000000); (false, 1700000001000); (false, 1700000002000)]
      [] =
    ([ Returned {| allowed := true; remaining := Num 2;
                   resetTime := Num 3600 |};
       Returned {| allowed := true; remaining := Num 1;
                   resetTime := Num 3600 |};
       Returned {| allowed := false; remaining := Num 0;
                   resetTime := Num 86400 |} ], s')
    /\ In {| identifier := "password_reset_ip1"; attempt_count := 3;
             blocked := true; created_at := 1700000002000 |} s'.
Proof.
  apply (consecutive_failures "password_reset" "ip1"
           {| windowMs := 3600000; maxAttempts := 3;
              blockDurationMs := 86400000 |}
           [1700000000000; 1700000001000; 1700000002000] []).
  - reflexivity.
  - intros r [].
  - reflexivity.
  - intros t t' [<- | [<- | [<- | []]]] [<- | [<- | [<- | []]]]; cbn; lia.
Defined.

(** The count query throws after the clean-up has removed an old row. *)
Lemma store_error_fails_open_witness :
  let old := {| identifier := "auth_ip2"; attempt_count := 1;
                blocked := false; created_at := 1700000000000 |} in
  let f := {| cleanup_throws := false; blockCheck_throws := false;
              count_throws := true; insertAttempt_throws := false;
              insertBlock_throws := false; reset_throws := false |} in
  rateLimit "ip1" (Some false) (Some "auth") 1700003600001 f [old]
  = ([], Returned {| allowed := true; remaining := Num 5;
                     resetTime := Num 900 |})
  /\ rateLimit "ip1" (Some false) (Some "auth") 1700003600001 all_faults [old]
     = ([old], Returned {| allowed := true; remaining := Num 5;
                           resetTime := Num 900 |}).
Proof.
  intros old f.
  pose proof (store_error_fails_open "auth" "ip1"
                {| windowMs := 900000; maxAttempts := 5;
                   blockDurationMs := 3600000 |}
                false 1700003600001 f [old] eq_refl) as (Hcatch & _ & _).
  pose proof (store_error_fails_open "auth" "ip1"
                {| windowMs := 900000; maxAttempts := 5;
                   blockDurationMs := 3600000 |}
                false 1700003600001 all_faults [old] eq_refl) as (_ & _ & Hfirst).
  split.
  - exact (proj2 (Hcatch [] StoreError eq_refl)).
  - exact (Hfirst eq_refl).
Defined.

(** A success call 1.5 seconds after the block was created: 3598.5 seconds
    are left, and the call reports 3599. *)
Lemma active_block_denies_witness :
  let attempt := {| identifier := "auth_ip1"; attempt_count := 5;
                    blocked := false; created_at := 1700000000000 |} in
  let block := {| identifier := "auth_ip1"; attempt_count := 5;
                  blocked := true; created_at := 1700000000000 |} in
  rateLimit "ip1" (Some true) (Some "auth") 1700000001500 no_faults
    [attempt; block] =
  ([attempt; block],
   Returned {| allowed := false; remaining := Num 0; resetTime := Num 3599 |})
  /\ exists entry z,
       (In entry [attempt; block] /\ identifier entry = "auth_ip1"
        /\ blocked entry = true /\ 1699996401500 <= created_at entry)
       /\ (forall r', In r' [attempt; block] -> identifier r' = "auth_ip1" ->
             blocked r' = true -> 1699996401500 <= created_at r' ->
             created_at r' <= created_at entry)
       /\ rateLimit "ip1" (Some true) (Some "auth") 1700000001500 no_faults
            [attempt; block] =
          ([attempt; block],
           Returned {| allowed := false; remaining := Num 0;
                       resetTime := Num z |})
       /\ z = Z.max 0 (ceil_seconds (created_at entry
                                     + 3600000 - 1700000001500))
       /\ 0 <= z
       /\ created_at entry + 3600000 - 1700000001500 <= 1000 * z
          < created_at entry + 3600000 - 1700000001500 + 1000
       /\ (forall x, In x [attempt; block] -> 1699996401500 <= created_at x ->
             In x (fst (rateLimit "ip1" (Some true) (Some "auth") 1700000001500
                          no_faults [attempt; block]))).
Proof.
  intros attempt block. split; [reflexivity |].
  apply (active_block_denies "auth" "ip1"
           {| windowMs := 900000; maxAttempts := 5;
              blockDurationMs := 3600000 |}
           true 1700000001500 no_faults [attempt; block] block).
  - reflexivity.
  - reflexivity.
  - reflexivity.
  - right. left. reflexivity.
  - reflexivity.
  - reflexivity.
  - cbn. lia.
Defined.

(** A five-minute API clean-up removes a ten-minute-old password-reset
    block and keeps a fresh row of another key. *)
Lemma cleanup_is_global_witness :
  let old := {| identifier := "password_reset_ip2"; attempt_count := 3;
                blocked := true; created_at := 1700000000000 |} in
  let fresh := {| identifier := "auth_ip3"; attempt_count := 1;
                  blocked := false; created_at := 1700000500000 |} in
  rateLimit "ip1" (Some true) (Some "api_general") 1700000600000 no_faults
    [old; fresh]
  = ([fresh], Returned {| allowed := true; remaining := Num 100;
                          resetTime := Num 60 |})
  /\ (forall r, In r (delete_older (1700000600000 - 300000) [old; fresh]) <->
                In r [old; fresh] /\ 1700000600000 - 300000 <= created_at r)
  /\ (forall r, In r [old; fresh] ->
        created_at r < 1700000600000 - 300000 -> ~ In r [fresh])
  /\ (forall r, identifier r <> make_key "api_general" "ip1" ->
        (In r [fresh] <->
         In r [old; fresh] /\ 1700000600000 - 300000 <= created_at r)).
Proof.
  intros old fresh. split; [reflexivity |].
  apply (cleanup_is_global "api_general" "ip1"
           {| windowMs := 60000; maxAttempts := 100;
              blockDurationMs := 300000 |}
           true 1700000600000 no_faults [old; fresh] [fresh]
           (Returned {| allowed := true; remaining := Num 100;
                        resetTime := Num 60 |})).
  - reflexivity.
  - reflexivity.
  - reflexivity.
Defined.

(** The third failing password-reset attempt creates the block and reports
    86400 seconds; two later calls read it one and five seconds after and
    report 86399 and 86395.  The fifth failing login reports 3600. *)
Lemma block_reset_time_witness :
  let a1 := {| identifier := "password_reset_ip1"; attempt_count := 1;
               blocked := false; created_at := 1700000000000 |} in
  let a2 := {| identifier := "password_reset_ip1"; attempt_count := 2;
               blocked := false; created_at := 1700000001000 |} in
  let block := {| identifier := "password_reset_ip1"; attempt_count := 3;
                  blocked := true; created_at := 1700000002000 |} in
  let login k := {| identifier := "auth_ip1"; attempt_count := k;
                    blocked := false; created_at := 1700000000000 + k |} in
  (snd (rateLimit "ip1" (Some false) (Some "password_reset") 1700000002000
          no_faults [a1; a2])
   = Returned {| allowed := false; remaining := Num 0;
                 resetTime := Num 86400 |}
   /\ snd (rateLimit "ip1" (Some true) (Some "password_reset") 1700000003000
             no_faults [block])
      = Returned {| allowed := false; remaining := Num 0;
                    resetTime := Num 86399 |}
   /\ snd (rateLimit "ip1" (Some false) (Some "password_reset") 1700000007000
             no_faults [block])
      = Returned {| allowed := false; remaining := Num 0;
                    resetTime := Num 86395 |}
   /\ snd (rateLimit "ip1" (Some false) (Some "auth") 1700000000005
             no_faults [login 1; login 2; login 3; login 4])
      = Returned {| allowed := false; remaining := Num 0;
                    resetTime := Num 3600 |})
  /\ (exists s' n z,
         rateLimit "ip1" (Some false) (Some "password_reset") 1700000002000
           no_faults [a1; a2] =
         (s', Returned {| allowed := false; remaining := Num 0;
                          resetTime := Num z |})
         /\ z = ceil_seconds 86400000
         /\ 1000 * z = 86400000
         /\ In {| identifier := "password_reset_ip1"; attempt_count := n;
                  blocked := true; created_at := 1700000002000 |} s')
  /\ (exists s' n z,
         rateLimit "ip1" (Some false) (Some "auth") 1700000000005
           no_faults [login 1; login 2; login 3; login 4] =
         (s', Returned {| allowed := false; remaining := Num 0;
                          resetTime := Num z |})
         /\ z = ceil_seconds 3600000
         /\ 1000 * z = 3600000
         /\ In {| identifier := "auth_ip1"; attempt_count := n;
                  blocked := true; created_at := 1700000000005 |} s')
  /\ (exists z1 z2,
         snd (rateLimit "ip1" (Some true) (Some "password_reset")
                1700000003000 no_faults [block])
           = Returned {| allowed := false; remaining := Num 0;
                         resetTime := Num z1 |}
         /\ snd (rateLimit "ip1" (Some false) (Some "password_reset")
                   1700000007000 no_faults [block])
            = Returned {| allowed := false; remaining := Num 0;
                          resetTime := Num z2 |}
         /\ 0 <= z2 /\ z2 <= z1
         /\ 1700000002000 + 86400000 - 1700000003000 <= 1000 * z1
            < 1700000002000 + 86400000 - 1700000003000 + 1000
         /\ 1700000002000 + 86400000 - 1700000007000 <= 1000 * z2
            < 1700000002000 + 86400000 - 1700000007000 + 1000
         /\ (1700000002000 <= 1700000003000 ->
             z1 <= ceil_seconds 86400000 /\ 1000 * z1 <= 86400000)).
Proof.
  intros a1 a2 block login.
  destruct (block_reset_time "password_reset" "ip1"
              {| windowMs := 3600000; maxAttempts := 3;
                 blockDurationMs := 86400000 |} eq_refl)
    as [Hcreate Hlater].
  destruct (block_reset_time "auth" "ip1"
              {| windowMs := 900000; maxAttempts := 5;
                 blockDurationMs := 3600000 |} eq_refl)
    as [Hlogin _].
  split; [repeat split; reflexivity |].
  split; [| split].
  - apply (Hcreate 1700000002000 [a1; a2]).
    + reflexivity.
    + vm_compute. discriminate.
  - apply (Hlogin 1700000000005 [login 1; login 2; login 3; login 4]).
    + reflexivity.
    + vm_compute. discriminate.
  - apply (Hlater block 1700000003000 1700000007000 true false
             no_faults no_faults [block] [block]);
      try reflexivity.
    lia.
Defined.

(** A success after two failures, and the sequence fail, fail, succeed,
    fail, for the type ["auth"]. *)
Lemma success_resets_counter_witness :
  let a1 := {| identifier := "auth_ip1"; attempt_count := 1;
               blocked := false; created_at := 1700000000000 |} in
  let a2 := {| identifier := "auth_ip1"; attempt_count := 2;
               blocked := false; created_at := 1700000001000 |} in
  let other := {| identifier := "auth_ip2"; attempt_count := 1;
                  blocked := false; created_at := 1700000001500 |} in
  (exists r,
      rateLimit "ip1" (Some true) (Some "auth") 1700000002000 no_faults
        [a1; other; a2] = ([other], Returned r)
      /\ allowed r = true
      /\ forall x,
           In x (fst (rateLimit "ip1" (Some true) (Some "auth") 1700000002000
                        no_faults [a1; other; a2])) ->
           identifier x = "auth_ip1" -> blocked x = true)
  /\ (exists a2' a3 s',
         run_calls "ip1" "auth"
           [(false, 1700000000000); (false, 1700000001000);
            (true, 1700000002000); (false, 1700000003000)] [] =
         ([ Returned {| allowed := true; remaining := Num 4;
                        resetTime := Num 900 |};
            Returned {| allowed := true; remaining := Num a2';
                        resetTime := Num 900 |};
            Returned {| allowed := true; remaining := Num a3;
                        resetTime := Num 900 |};
            Returned {| allowed := true; remaining := Num 4;
                        resetTime := Num 900 |} ], s')
         /\ 5 - 2 <= a2' <= 5 - 1).
Proof.
  intros a1 a2 other.
  destruct (success_resets_counter "auth" "ip1"
              {| windowMs := 900000; maxAttempts := 5;
                 blockDurationMs := 3600000 |} eq_refl)
    as [Hreset Hseq].
  split.
  - apply (Hreset 1700000002000 [a1; other; a2]). reflexivity.
  - apply (Hseq 1700000000000 1700000001000 1700000002000 1700000003000 []).
    intros r [].
Defined.

(** A success call on a key without rows, in a table without old rows. *)
Lemma success_without_rows_witness :
  let other := {| identifier := "auth_ip2"; attempt_count := 1;
                  blocked := false; created_at := 1700000000000 |} in
  rateLimit "ip1" (Some true) (Some "auth") 1700000001000 no_faults [other]
  = ([other], Returned {| allowed := true; remaining := Num 5;
                          resetTime := Num 900 |})
  /\ fst (rateLimit "ip1" (Some true) (Some "auth") 1700000001000 no_faults
            [other]) = [other].
Proof.
  intros other.
  destruct (success_without_rows "auth" "ip1"
              {| windowMs := 900000; maxAttempts := 5;
                 blockDurationMs := 3600000 |}
              1700000001000 [other] eq_refl) as [Hrun Hsame].
  - intros r [<- | []]. cbn. discriminate.
  - split; [exact Hrun |].
    apply Hsame. intros r [<- | []]. cbn. lia.
Defined.

(** The type ["comments"] is not registered and is not a property of
    [Object.prototype]. *)
Lemma unknown_type_rejects_witness :
  rateLimit "ip1" (Some true) (Some "comments") 1700000000000 no_faults []
  = ([], Rejected TypeError)
  /\ forall r,
       snd (rateLimit "ip1" (Some true) (Some "comments") 1700000000000
              no_faults []) <> Returned r.
Proof.
  apply (unknown_type_rejects "comments" "ip1" (Some true) 1700000000000
           no_faults []).
  - reflexivity.
  - cbn. intuition discriminate.
Defined.

(** The defaults: [rateLimit("ip1")] with a store that throws at once. *)
Lemma result_fields_nonneg_witness :
  exists s' r a b,
    rateLimit "ip1" None None 1700000000000 all_faults [] = (s', Returned r)
    /\ remaining r = Num a /\ resetTime r = Num b
    /\ 0 <= a /\ 0 <= b.
Proof.
  apply (result_fields_nonneg "ip1" None None
           {| windowMs := 900000; maxAttempts := 5;
              blockDurationMs := 3600000 |}
           1700000000000 all_faults []).
  reflexivity.
Defined.

(** * Further properties of the limiter *)

(** ** Calls that report a success *)

Lemma rateLimit_try_success_rows (c : RateLimitConfig) (key : string)
    (now : Z) (f : Faults) (s s' : Store) (o : result RateLimitResult) :
  rateLimit_try c key true now f s = (s', o) ->
  forall r, In r s' -> In r s.
Proof.
  unfold rateLimit_try, bind, store_call, ret.
  assert (forall r, In r (delete_older (now - blockDurationMs c) s) -> In r s)
    as Hclean by (intros r Hr; apply in_delete_older in Hr; tauto).
  destruct (cleanup_throws f); [intros [= <- _] r Hr; exact Hr |].
  destruct (blockCheck_throws f); [intros [= <- _]; exact Hclean |].
  destruct (select_block _ _ _); [intros [= <- _]; exact Hclean |].
  destruct (count_throws f); [intros [= <- _]; exact Hclean |].
  cbn. destruct (reset_throws f); intros [= <- _]; [exact Hclean |].
  intros r Hr. apply in_delete_attempts in Hr. apply Hclean. tauto.
Qed.

(** No row is written by a call with [success = true]. *)
Lemma success_rows_subset (ident type : string) (now : Z) (f : Faults)
    (s : Store) (r : AttemptRecord) :
  In r (fst (rateLimit ident (Some true) (Some type) now f s)) -> In r s.
Proof.
  unfold rateLimit, from_option, id.
  destruct (js_get rateLimitConfigs type) as [c | |];
    [| intros Hr; exact Hr | intros Hr; exact Hr].
  unfold try_catch, ret.
  destruct (rateLimit_try c _ true now f s) as [s' [res | e]] eqn:Htry;
    cbn [fst]; apply (rateLimit_try_success_rows _ _ _ _ _ _ _ Htry).
Qed.

(** X1. A call that reports a success, explicitly or by the default of an
    omitted [success], never writes: whatever the type (registered or not,
    given or omitted), the time and the store calls that throw, every row of
    the table it leaves was in the table before. *)
Theorem success_call_never_inserts (ident : string) (success : option bool)
    (type : option string) (now : Z) (f : Faults) (s : Store)
    (r : AttemptRecord) :
  default true success = true ->
  In r (fst (rateLimit ident success type now f s)) -> In r s.
Proof.
  intros Hsucc.
  assert (rateLimit ident success type now f s
          = rateLimit ident (Some true) (Some (default "auth" type)) now f s)
    as -> by (destruct success as [[|] |], type; try discriminate Hsucc;
              reflexivity).
  apply success_rows_subset.
Qed.

(** A success call on a key without block row is allowed, whatever throws,
    and leaves the key without block row. *)
Lemma success_call_unblocked (type ident : string) (c : RateLimitConfig)
    (now : Z) (f : Faults) (s : Store) :
  rateLimitConfigs !! type = Some c ->
  no_block (make_key type ident) s ->
  exists r,
    snd (rateLimit ident (Some true) (Some type) now f s) = Returned r
    /\ allowed r = true
    /\ no_block (make_key type ident)
         (fst (rateLimit ident (Some true) (Some type) now f s)).
Proof.
  intros H Hnb.
  assert (no_block (make_key type ident)
            (fst (rateLimit ident (Some true) (Some type) now f s))) as Hnb'.
  { intros x Hx. apply Hnb.
    apply (success_rows_subset ident type now f s x Hx). }
  revert Hnb'. rewrite (rateLimit_registered _ _ _ _ _ _ _ H).
  destruct (rateLimit_try c (make_key type ident) true now f s)
    as [s' [r | e]] eqn:Htry; cbn [fst snd]; intros Hnb'.
  - exists r. split; [reflexivity |]. split; [| exact Hnb'].
    revert Htry. unfold rateLimit_try, bind, store_call, ret.
    destruct (cleanup_throws f); [discriminate |].
    destruct (blockCheck_throws f); [discriminate |].
    rewrite (no_block_select _ _ _ (no_block_delete_older _ _ _ Hnb)).
    destruct (count_throws f); [discriminate |].
    cbn. destruct (reset_throws f); [discriminate |].
    intros [= _ <-]. reflexivity.
  - exists (fail_open c). repeat split. exact Hnb'.
Qed.

(** X2. The route handlers call [rateLimitAPI(name)] without [success], so
    every call counts as a success: from a table without block row for the
    key ["api_general_" ++ name], however many calls are made, at whatever
    times and whichever store calls throw, every call is allowed, no row is
    ever written and the key never gets a block row. *)
Theorem api_throttle_never_blocks (ident : string) (calls : list (Z * Faults)) :
  forall s : Store,
    no_block (make_key "api_general" ident) s ->
    Forall (fun o => exists r, o = Returned r /\ allowed r = true)
      (fst (run_api ident calls s))
    /\ List.length (fst (run_api ident calls s)) = List.length calls
    /\ no_block (make_key "api_general" ident) (snd (run_api ident calls s))
    /\ (forall r, In r (snd (run_api ident calls s)) -> In r s).
Proof.
  induction calls as [| [now f] rest IH]; intros s Hnb; cbn [run_api].
  - cbn. repeat split; [constructor | exact Hnb | tauto].
  - unfold rateLimitAPI. cbn [default from_option id].
    destruct (success_call_unblocked "api_general" ident
                {| windowMs := 60000; maxAttempts := 100;
                   blockDurationMs := 300000 |} now f s eq_refl Hnb)
      as (r & Hout & Hallowed & Hnb1).
    pose proof (fun x => success_rows_subset ident "api_general" now f s x)
      as Hsub.
    destruct (rateLimit ident (Some true) (Some "api_general") now f s)
      as [s1 o]. cbn [fst snd] in Hout, Hnb1, Hsub. subst o.
    destruct (IH s1 Hnb1) as (Hall & Hlen & Hnb2 & Hsub2).
    destruct (run_api ident rest s1) as [os s2]. cbn [fst snd] in *.
    repeat split.
    + constructor; [exists r; split; [reflexivity | exact Hallowed] | exact Hall].
    + cbn. f_equal. exact Hlen.
    + exact Hnb2.
    + intros x Hx. apply Hsub, Hsub2, Hx.
Qed.

(** X3. The function made by [createRateLimitMiddleware] (for a registered
    type, ["api_general"] when omitted; no store call throwing) returns a
    result, denies exactly when the table holds a block row of the key
    created at or after [now - blockDurationMs], and writes no row. *)
Theorem middleware_denies_iff_blocked (type : option string) (ident : string)
    (c : RateLimitConfig) (now : Z) (s : Store) :
  rateLimitConfigs !! default "api_general" type = Some c ->
  let key := make_key (default "api_general" type) ident in
  exists s' r,
    createRateLimitMiddleware type ident now no_faults s = (s', Returned r)
    /\ (allowed r = false <->
        exists row, In row s /\ identifier row = key /\ blocked row = true
                    /\ now - blockDurationMs c <= created_at row)
    /\ (forall x, In x s' -> In x s).
Proof.
  intros H key. unfold createRateLimitMiddleware.
  set (ty := default "api_general" type) in *.
  pose proof (fun x => success_rows_subset ident ty now no_faults s x)
    as Hsub.
  rewrite (rateLimit_registered _ _ _ _ _ _ _ H) in *.
  rewrite rateLimit_try_no_faults in *. cbn zeta in *. fold key in Hsub |- *.
  destruct (select_block key (now - blockDurationMs c) s) as [entry |] eqn:Hsel.
  - eexists _, _. split; [reflexivity |]. split; [| exact Hsub].
    cbn. split; [intros _ | reflexivity].
    destruct (select_block_Some _ _ _ _ Hsel) as (Hin & Hk & Hb & Hf & _).
    exists entry. tauto.
  - eexists _, _. split; [reflexivity |]. split; [| exact Hsub].
    cbn. split; [discriminate |].
    intros (row & Hin & Hk & Hb & Hf). exfalso.
    rewrite select_block_None in Hsel. apply (Hsel row Hin). tauto.
Qed.

(** ** What a call deletes *)

(** X4. For a registered type, whatever throws: a row created at or after
    [now - blockDurationMs] is still in the table after the call unless the
    call reports a success and the row is an attempt ([blocked = false]) of
    the call's own key.  In particular no call removes a block row before
    the cut-off passes it, and a failing call removes nothing but old rows. *)
Theorem recent_rows_survive (type ident : string) (c : RateLimitConfig)
    (success : bool) (now : Z) (f : Faults) (s : Store) (row : AttemptRecord) :
  rateLimitConfigs !! type = Some c ->
  In row s ->
  now - blockDurationMs c <= created_at row ->
  blocked row = true \/ identifier row <> make_key type ident \/ success = false ->
  In row (fst (rateLimit ident (Some success) (Some type) now f s)).
Proof.
  intros H Hin Hfresh Hkind.
  rewrite (rateLimit_registered _ _ _ _ _ _ _ H).
  assert (In row (delete_older (now - blockDurationMs c) s)) as Hclean
    by (apply in_delete_older; split; assumption).
  assert (forall x t, In row t -> In row (insert_row x t)) as Hins
    by (intros x t Ht; unfold insert_row; apply in_app_iff; left; exact Ht).
  assert (forall s' o,
            rateLimit_try c (make_key type ident) success now f s = (s', o) ->
            In row s') as Htry.
  { unfold rateLimit_try, bind, store_call, ret.
    destruct (cleanup_throws f); [intros s' o [= <- _]; exact Hin |].
    destruct (blockCheck_throws f); [intros s' o [= <- _]; exact Hclean |].
    destruct (select_block _ _ _); [intros s' o [= <- _]; exact Hclean |].
    destruct (count_throws f); [intros s' o [= <- _]; exact Hclean |].
    destruct success; cbn.
    - destruct (reset_throws f); intros s' o [= <- _]; [exact Hclean |].
      apply in_delete_attempts. split; [exact Hclean |].
      intros [Hk Hb]. destruct Hkind as [Hb' | [Hk' | Hs]];
        [congruence | contradiction | discriminate].
    - destruct (insertAttempt_throws f); [intros s' o [= <- _]; exact Hclean |].
      destruct (maxAttempts c <=? _).
      + destruct (insertBlock_throws f); intros s' o [= <- _]; auto.
      + intros s' o [= <- _]. auto. }
  destruct (rateLimit_try c (make_key type ident) success now f s)
    as [s' [r | e]] eqn:Hrun; cbn [fst]; apply (Htry _ _ eq_refl).
Qed.

(** ** Independence of the keys *)

Lemma filter_matches_key_rows (key : string) (b : bool) (from : Z) (s : Store) :
  List.filter (matches key b from) (key_rows key s)
  = List.filter (matches key b from) s.
Proof.
  unfold key_rows. induction s as [| r s IH]; cbn; [reflexivity |].
  destruct (String.eqb (identifier r) key) eqn:Hk; cbn.
  - rewrite IH. reflexivity.
  - unfold matches at 2. rewrite Hk. cbn. exact IH.
Qed.

Lemma key_rows_delete_older_comm (key : string) (cutoff : Z) (s : Store) :
  key_rows key (delete_older cutoff s) = delete_older cutoff (key_rows key s).
Proof.
  unfold key_rows, delete_older. induction s as [| r s IH]; cbn; [reflexivity |].
  destruct (created_at r <? cutoff) eqn:Hold;
    destruct (String.eqb (identifier r) key) eqn:Hk; cbn;
    rewrite ?Hold, ?Hk; cbn; rewrite IH; reflexivity.
Qed.

Lemma key_rows_delete_attempts_comm (key : string) (s : Store) :
  key_rows key (delete_attempts key s) = delete_attempts key (key_rows key s).
Proof.
  unfold key_rows, delete_attempts. induction s as [| r s IH]; cbn; [reflexivity |].
  destruct (String.eqb (identifier r) key) eqn:Hk; cbn; rewrite ?Hk; cbn;
    [| exact IH].
  destruct (Bool.eqb (blocked r) false); cbn; rewrite ?Hk, IH; reflexivity.
Qed.

Lemma key_rows_insert_same (key : string) (r : AttemptRecord) (s1 s2 : Store) :
  key_rows key s1 = key_rows key s2 ->
  key_rows key (insert_row r s1) = key_rows key (insert_row r s2).
Proof.
  intros H. unfold key_rows, insert_row in *.
  rewrite !List.filter_app, H. reflexivity.
Qed.

Lemma select_block_same (key : string) (from : Z) (s1 s2 : Store) :
  key_rows key s1 = key_rows key s2 ->
  select_block key from s1 = select_block key from s2.
Proof.
  intros H. unfold select_block.
  rewrite <- (filter_matches_key_rows key true from s1), H.
  rewrite filter_matches_key_rows. reflexivity.
Qed.

Lemma count_attempts_same (key : string) (from : Z) (s1 s2 : Store) :
  key_rows key s1 = key_rows key s2 ->
  count_attempts key from s1 = count_attempts key from s2.
Proof.
  intros H. unfold count_attempts.
  rewrite <- (filter_matches_key_rows key false from s1), H.
  rewrite filter_matches_key_rows. reflexivity.
Qed.

Lemma rateLimit_try_same (c : RateLimitConfig) (key : string) (success : bool)
    (now : Z) (f : Faults) (s1 s2 : Store) :
  key_rows key s1 = key_rows key s2 ->
  snd (rateLimit_try c key success now f s1)
  = snd (rateLimit_try c key success now f s2)
  /\ key_rows key (fst (rateLimit_try c key success now f s1))
     = key_rows key (fst (rateLimit_try c key success now f s2)).
Proof.
  intros H.
  assert (key_rows key (delete_older (now - blockDurationMs c) s1)
          = key_rows key (delete_older (now - blockDurationMs c) s2)) as Hclean
    by (rewrite !key_rows_delete_older_comm, H; reflexivity).
  unfold rateLimit_try, bind, store_call, ret.
  destruct (cleanup_throws f); [split; [reflexivity | exact H] |].
  destruct (blockCheck_throws f); [split; [reflexivity | exact Hclean] |].
  rewrite (select_block_same key _ _ _ Hclean).
  destruct (select_block key _ (delete_older _ s2));
    [split; [reflexivity | exact Hclean] |].
  destruct (count_throws f); [split; [reflexivity | exact Hclean] |].
  rewrite (count_attempts_same key _ _ _ Hclean).
  destruct success; cbn [negb andb].
  - destruct (reset_throws f); cbn [fst snd];
      [split; [reflexivity | exact Hclean] |].
    split; [reflexivity |].
    rewrite !key_rows_delete_attempts_comm, Hclean. reflexivity.
  - destruct (insertAttempt_throws f); cbn [fst snd];
      [split; [reflexivity | exact Hclean] |].
    destruct (maxAttempts c <=? _).
    + destruct (insertBlock_throws f); cbn [fst snd]; (split; [reflexivity |]);
        repeat apply key_rows_insert_same; exact Hclean.
    + cbn [fst snd]. split; [reflexivity |]. apply key_rows_insert_same, Hclean.
Qed.

(** X5. For a registered type, a call sees only the rows of its own key:
    on two tables that hold the same rows for the key, in the same order, it
    returns the same result and leaves the same rows for the key, whatever
    the other rows are and whichever store calls throw. *)
Theorem decision_depends_on_own_rows (type ident : string)
    (c : RateLimitConfig) (success : bool) (now : Z) (f : Faults)
    (s1 s2 : Store) :
  rateLimitConfigs !! type = Some c ->
  key_rows (make_key type ident) s1 = key_rows (make_key type ident) s2 ->
  snd (rateLimit ident (Some success) (Some type) now f s1)
  = snd (rateLimit ident (Some success) (Some type) now f s2)
  /\ key_rows (make_key type ident)
       (fst (rateLimit ident (Some success) (Some type) now f s1))
     = key_rows (make_key type ident)
         (fst (rateLimit ident (Some success) (Some type) now f s2)).
Proof.
  intros H Hsame.
  rewrite !(rateLimit_registered _ _ _ _ _ _ _ H).
  destruct (rateLimit_try_same c (make_key type ident) success now f s1 s2 Hsame)
    as [Hout Hrows].
  destruct (rateLimit_try c (make_key type ident) success now f s1)
    as [t1 [r1 | e1]];
    destruct (rateLimit_try c (make_key type ident) success now f s2)
      as [t2 [r2 | e2]];
    cbn [fst snd] in *; try discriminate Hout;
    (split; [| exact Hrows]).
  - injection Hout as ->. reflexivity.
  - reflexivity.
Qed.

(** X6. The keys of the registered types never collide: two calls use the
    same key only if they have the same type and the same identifier, so the
    three policies keep separate rows. *)
Theorem registered_keys_distinct (type1 type2 ident1 ident2 : string)
    (c1 c2 : RateLimitConfig) :
  rateLimitConfigs !! type1 = Some c1 ->
  rateLimitConfigs !! type2 = Some c2 ->
  make_key type1 ident1 = make_key type2 ident2 ->
  type1 = type2 /\ ident1 = ident2.
Proof.
  intros H1 H2.
  destruct (registered_cases _ _ H1) as [[-> _] | [[-> _] | [-> _]]];
    destruct (registered_cases _ _ H2) as [[-> _] | [[-> _] | [-> _]]];
    unfold make_key; intros Hkey; cbv in Hkey; try discriminate Hkey;
    injection Hkey as ->; split; reflexivity.
Qed.

(** ** Expiry *)

(** X7. Rows older than the block duration are forgotten: for a registered
    type, when every row of the key, block rows included, was created before
    [now - blockDurationMs], a failing call is allowed with
    [remaining = maxAttempts - 1] and a success call with
    [remaining = maxAttempts], as on a key that was never seen. *)
Theorem expired_rows_forgotten (type ident : string) (c : RateLimitConfig)
    (now : Z) (s : Store) :
  rateLimitConfigs !! type = Some c ->
  (forall r, In r s -> identifier r = make_key type ident ->
             created_at r < now - blockDurationMs c) ->
  rateLimit ident (Some false) (Some type) now no_faults s =
  (insert_row {| identifier := make_key type ident; attempt_count := 1;
                 blocked := false; created_at := now |}
     (delete_older (now - blockDurationMs c) s),
   Returned {| allowed := true;
               remaining := Num (maxAttempts c - 1);
               resetTime := Num (ceil_seconds (windowMs c)) |})
  /\ rateLimit ident (Some true) (Some type) now no_faults s =
     (delete_older (now - blockDurationMs c) s,
      Returned {| allowed := true;
                  remaining := Num (maxAttempts c);
                  resetTime := Num (ceil_seconds (windowMs c)) |}).
Proof.
  intros H Hold.
  pose proof (registered_bounds _ _ H) as (Hw & Hn & Hwb).
  set (key := make_key type ident) in *.
  assert (select_block key (now - blockDurationMs c) s = None) as Hsel.
  { apply select_block_None. intros r Hr (Hk & _ & Hf).
    specialize (Hold r Hr Hk). lia. }
  assert (no_rows key (delete_older (now - blockDurationMs c) s)) as Hnone.
  { intros r Hr Hk. apply in_delete_older in Hr. destruct Hr as [Hr Hf].
    specialize (Hold r Hr Hk). lia. }
  rewrite !(rateLimit_registered _ _ _ _ _ _ _ H).
  rewrite !rateLimit_try_no_faults. cbn zeta. fold key.
  rewrite Hsel, (no_rows_count _ _ _ Hnone), (no_rows_delete_attempts _ _ Hnone).
  assert ((maxAttempts c <=? 0 + 1) = false) as -> by (apply Z.leb_gt; lia).
  split; do 4 f_equal; lia.
Qed.

(** X8. The [resetTime] of a denial is a sufficient wait.  When the block
    check finds a row (registered type, the clean-up and the block check not
    throwing), the returned [resetTime = z] is the time left on that row
    rounded up to whole seconds; it is 0 exactly when the row was created
    [blockDurationMs] ago to the millisecond, in which case the call is still
    denied; and at any time more than [z] seconds later no block row the
    table holds now passes the block check any more. *)
Theorem reset_time_is_sufficient (type ident : string) (c : RateLimitConfig)
    (success : bool) (now : Z) (f : Faults) (s : Store) (entry : AttemptRecord) :
  rateLimitConfigs !! type = Some c ->
  cleanup_throws f = false -> blockCheck_throws f = false ->
  select_block (make_key type ident) (now - blockDurationMs c) s = Some entry ->
  exists z,
    snd (rateLimit ident (Some success) (Some type) now f s)
    = Returned {| allowed := false; remaining := Num 0; resetTime := Num z |}
    /\ created_at entry + blockDurationMs c - now <= 1000 * z
       < created_at entry + blockDurationMs c - now + 1000
    /\ (z = 0 <-> created_at entry = now - blockDurationMs c)
    /\ forall now', now + 1000 * z < now' ->
         select_block (make_key type ident) (now' - blockDurationMs c) s = None.
Proof.
  intros H Hc Hb Hsel.
  destruct (select_block_Some _ _ _ _ Hsel) as (Hin & Hk & Hbl & Hfresh & Hmax).
  rewrite (rateLimit_registered _ _ _ _ _ _ _ H).
  rewrite (rateLimit_try_blocked _ _ _ _ _ _ _ Hc Hb Hsel). cbn [snd].
  pose proof (ceil_seconds_bounds (created_at entry + blockDurationMs c - now))
    as Hceil.
  set (z := ceil_seconds (created_at entry + blockDurationMs c - now)) in *.
  assert (0 <= z) as Hz by lia.
  exists (Z.max z 0). rewrite (Z.max_l z 0) by lia.
  split; [reflexivity |]. split; [exact Hceil |]. split; [lia |].
  intros now' Hlater. apply select_block_None.
  intros r Hr (Hrk & Hrb & Hrf).
  assert (now - blockDurationMs c <= created_at r) as Hrnow by lia.
  specialize (Hmax r Hr Hrk Hrb Hrnow). lia.
Qed.

(** X9. Reaching the ceiling blocks the next calls.  For a registered type,
    after a failing call at time [t] that reaches the ceiling on a key
    without block row, a call at [t'] no later than [t + blockDurationMs] is
    denied, for either value of [success], with
    [resetTime = ceil((t + blockDurationMs - t') / 1000)], which is at most
    [ceil(blockDurationMs / 1000)] when [t <= t']. *)
Theorem ceiling_then_denied (type ident : string) (c : RateLimitConfig)
    (success : bool) (t t' : Z) (f : Faults) (s : Store) :
  rateLimitConfigs !! type = Some c ->
  no_block (make_key type ident) s ->
  maxAttempts c <=
    count_attempts (make_key type ident) (t - windowMs c)
      (delete_older (t - blockDurationMs c) s) + 1 ->
  t' <= t + blockDurationMs c ->
  cleanup_throws f = false -> blockCheck_throws f = false ->
  snd (rateLimit ident (Some success) (Some type) t' f
         (fst (rateLimit ident (Some false) (Some type) t no_faults s)))
  = Returned {| allowed := false;
                remaining := Num 0;
                resetTime := Num (ceil_seconds (t + blockDurationMs c - t')) |}
  /\ (t <= t' ->
      ceil_seconds (t + blockDurationMs c - t')
      <= ceil_seconds (blockDurationMs c)).
Proof.
  intros H Hnb Hceil Hsoon Hc Hb.
  set (key := make_key type ident) in *.
  rewrite (fail_call_blocks _ _ _ H t s Hnb Hceil). cbn [fst]. fold key.
  set (n := count_attempts key (t - windowMs c) _) in *.
  set (attempt := {| identifier := key; attempt_count := n + 1;
                     blocked := false; created_at := t |}).
  set (block := {| identifier := key; attempt_count := n + 1;
                   blocked := true; created_at := t |}).
  set (s1 := insert_row block (insert_row attempt _)).
  assert (In block s1) as Hblock
    by (unfold s1, insert_row; rewrite !in_app_iff; right; left; reflexivity).
  destruct (select_block_exists key (t' - blockDurationMs c) s1 block Hblock
              eq_refl eq_refl ltac:(cbn; lia)) as [entry Hsel].
  destruct (select_block_Some _ _ _ _ Hsel) as (Hin & Hk & Hbl & _ & _).
  assert (created_at entry = t) as Ht.
  { unfold s1, insert_row in Hin. rewrite !in_app_iff in Hin. cbn in Hin.
    destruct Hin as [[Hin | [<- | []]] | [<- | []]]; try reflexivity.
    apply in_delete_older in Hin. destruct Hin as [Hin _].
    rewrite (Hnb entry Hin Hk) in Hbl. discriminate. }
  rewrite (rateLimit_registered _ _ _ _ _ _ _ H). fold key.
  rewrite (rateLimit_try_blocked _ _ _ _ _ _ _ Hc Hb Hsel). cbn [snd].
  rewrite Ht.
  pose proof (ceil_seconds_nonneg (t + blockDurationMs c - t') ltac:(lia)).
  rewrite Z.max_l by lia.
  split; [reflexivity |].
  intros Hle. apply ceil_seconds_mono. lia.
Qed.

(** ** Clean-up across types *)

(** X10. The clean-up of one type lifts the blocks of another.  Let a call
    of a registered type [type1] (its clean-up not throwing) run at [now1]
    on a table whose block rows for a different key, of a registered type
    [type2], are all older than [now1 - blockDurationMs] of [type1].  Then a
    success call for that other key on the table left behind is allowed,
    whatever throws, although on the original table it is denied as long as
    one of those block rows is younger than the block duration of [type2]. *)
Theorem cleanup_lifts_other_blocks (type1 type2 ident1 ident2 : string)
    (c1 c2 : RateLimitConfig) (success1 : bool) (now1 now2 : Z)
    (f1 f2 : Faults) (s : Store) :
  rateLimitConfigs !! type1 = Some c1 ->
  rateLimitConfigs !! type2 = Some c2 ->
  make_key type1 ident1 <> make_key type2 ident2 ->
  cleanup_throws f1 = false ->
  (forall r, In r s -> identifier r = make_key type2 ident2 ->
             blocked r = true -> created_at r < now1 - blockDurationMs c1) ->
  (exists r,
      snd (rateLimit ident2 (Some true) (Some type2) now2 f2
             (fst (rateLimit ident1 (Some success1) (Some type1) now1 f1 s)))
      = Returned r /\ allowed r = true)
  /\ (cleanup_throws f2 = false -> blockCheck_throws f2 = false ->
      (exists row, In row s /\ identifier row = make_key type2 ident2
                   /\ blocked row = true
                   /\ now2 - blockDurationMs c2 <= created_at row) ->
      exists r,
        snd (rateLimit ident2 (Some true) (Some type2) now2 f2 s) = Returned r
        /\ allowed r = false).
Proof.
  intros H1 H2 Hkeys Hc1 Hold. split.
  - assert (no_block (make_key type2 ident2)
              (fst (rateLimit ident1 (Some success1) (Some type1) now1 f1 s)))
      as Hnb.
    { rewrite (rateLimit_registered _ _ _ _ _ _ _ H1).
      destruct (rateLimit_try c1 (make_key type1 ident1) success1 now1 f1 s)
        as [s1 o1] eqn:Htry.
      destruct (rateLimit_try_frame _ _ _ _ _ _ _ _ Hc1 Htry) as [_ Hall].
      assert (no_block (make_key type2 ident2) s1) as Hnb1.
      { intros r Hr Hk. destruct (Hall r Hr) as [Hkept | [Hk1 _]].
        - apply in_delete_older in Hkept. destruct Hkept as [Hin Hfresh].
          destruct (blocked r) eqn:Hb; [| reflexivity].
          specialize (Hold r Hin Hk Hb). lia.
        - congruence. }
      destruct o1; exact Hnb1. }
    destruct (success_call_unblocked type2 ident2 c2 now2 f2 _ H2 Hnb)
      as (r & Hout & Hallowed & _).
    exists r. split; assumption.
  - intros Hc2 Hb2 (row & Hin & Hk & Hb & Hfresh).
    destruct (select_block_exists _ _ _ _ Hin Hk Hb Hfresh) as [entry Hsel].
    rewrite (rateLimit_registered _ _ _ _ _ _ _ H2).
    rewrite (rateLimit_try_blocked _ _ _ _ _ _ _ Hc2 Hb2 Hsel). cbn [snd].
    eexists. split; reflexivity.
Qed.

(** ** Failures outside the window *)

Lemma count_attempts_old (key : string) (from : Z) (s : Store) :
  (forall r, In r s -> identifier r = key -> created_at r < from) ->
  count_attempts key from s = 0.
Proof.
  intros Hold. unfold count_attempts. rewrite filter_none; [reflexivity |].
  intros r Hr. apply not_true_is_false. rewrite matches_spec.
  intros (Hk & _ & Hf). specialize (Hold r Hr Hk). lia.
Qed.

(** X11. Failures that are each more than [windowMs] after the previous one
    never block.  For a registered type and a key without block row whose
    rows were created at [prev] or before: however many failing calls are
    made at times spaced by more than [windowMs], each of them is allowed
    with [remaining = maxAttempts - 1]. *)
Theorem spaced_failures_never_block (type ident : string)
    (c : RateLimitConfig) (ts : list Z) :
  rateLimitConfigs !! type = Some c ->
  forall (prev : Z) (s : Store),
    no_block (make_key type ident) s ->
    (forall r, In r s -> identifier r = make_key type ident ->
               created_at r <= prev) ->
    spaced (windowMs c) prev ts ->
    fst (run_calls ident type (map (pair false) ts) s)
    = map (fun _ => Returned {| allowed := true;
                                remaining := Num (maxAttempts c - 1);
                                resetTime := Num (ceil_seconds (windowMs c)) |})
        ts.
Proof.
  intros H.
  pose proof (registered_bounds _ _ H) as (Hw & Hn & Hwb).
  set (key := make_key type ident).
  induction ts as [| t rest IH]; intros prev s Hnb Hprev Hspaced;
    [reflexivity |].
  destruct Hspaced as [Hgap Hrest]. cbn [map run_calls].
  assert (count_attempts key (t - windowMs c)
            (delete_older (t - blockDurationMs c) s) = 0) as Hcount.
  { apply count_attempts_old. intros r Hr Hk.
    apply in_delete_older in Hr. destruct Hr as [Hr _].
    specialize (Hprev r Hr Hk). lia. }
  rewrite (fail_call_allowed _ _ _ H t s Hnb)
    by (fold key; rewrite Hcount; lia).
  fold key. rewrite Hcount.
  set (s1 := insert_row _ _).
  specialize (IH t s1).
  destruct (run_calls ident type (map (pair false) rest) s1) as [os s2].
  cbn [fst] in *. rewrite IH; [reflexivity | | | exact Hrest].
  - apply no_block_insert; [| reflexivity].
    apply no_block_delete_older, Hnb.
  - intros r Hr Hk. unfold s1, insert_row in Hr.
    apply in_app_iff in Hr. destruct Hr as [Hr | [<- | []]]; [| cbn; lia].
    apply in_delete_older in Hr. destruct Hr as [Hr _].
    specialize (Hprev r Hr Hk). lia.
Qed.

(** ** Consistency of the result *)

(** X12. For a registered type, whatever the table and whichever store calls
    throw, the fields of the result agree with each other: [remaining] is
    between 0 and [maxAttempts]; a denial has [remaining = 0]; an allowed
    result has [resetTime = ceil(windowMs / 1000)], which is [windowMs] in
    whole seconds ([1000 * resetTime = windowMs]); and an allowed result of
    a failing call has [remaining >= 1]. *)
Theorem result_fields_consistent (type ident : string) (c : RateLimitConfig)
    (success : bool) (now : Z) (f : Faults) (s : Store) :
  rateLimitConfigs !! type = Some c ->
  exists r a,
    snd (rateLimit ident (Some success) (Some type) now f s) = Returned r
    /\ remaining r = Num a
    /\ 0 <= a <= maxAttempts c
    /\ (allowed r = false -> a = 0)
    /\ (allowed r = true -> resetTime r = Num (ceil_seconds (windowMs c)))
    /\ (success = false -> allowed r = true -> 1 <= a)
    /\ (allowed r = true ->
        exists z, resetTime r = Num z /\ 1000 * z = windowMs c).
Proof.
  intros H.
  pose proof (registered_whole_seconds _ _ H) as [Hwhole _].
  assert (exists r a,
             snd (rateLimit ident (Some success) (Some type) now f s)
             = Returned r
             /\ remaining r = Num a
             /\ 0 <= a <= maxAttempts c
             /\ (allowed r = false -> a = 0)
             /\ (allowed r = true ->
                 resetTime r = Num (ceil_seconds (windowMs c)))
             /\ (success = false -> allowed r = true -> 1 <= a)) as Hfields.
  {
    pose proof (registered_bounds _ _ H) as (Hw & Hn & Hwb).
    rewrite (rateLimit_registered _ _ _ _ _ _ _ H).
    unfold rateLimit_try, bind, store_call, ret.
    assert (exists r a,
               Returned (fail_open c) = Returned r
               /\ remaining r = Num a /\ 0 <= a <= maxAttempts c
               /\ (allowed r = false -> a = 0)
               /\ (allowed r = true ->
                   resetTime r = Num (ceil_seconds (windowMs c)))
               /\ (success = false -> allowed r = true -> 1 <= a)) as Hopen.
    { exists (fail_open c), (maxAttempts c). cbn.
      repeat split; try reflexivity; try discriminate; lia. }
    destruct (cleanup_throws f); [exact Hopen |].
    destruct (blockCheck_throws f); [exact Hopen |].
    destruct (select_block _ _ _) as [entry |].
    { cbn. eexists _, 0. repeat split; try reflexivity; try discriminate; lia. }
    destruct (count_throws f); [exact Hopen |].
    pose proof (count_attempts_le (make_key type ident) (now - windowMs c)
                  (delete_older (now - blockDurationMs c) s)) as [Hn0 _].
    set (n := count_attempts _ _ _) in *.
    destruct success; cbn [negb andb].
    - destruct (reset_throws f); [exact Hopen |]. cbn.
      eexists _, _. repeat split; try reflexivity; try discriminate; lia.
    - destruct (insertAttempt_throws f); [exact Hopen |].
      destruct (maxAttempts c <=? n + 1) eqn:Hceil.
      + destruct (insertBlock_throws f); [exact Hopen |]. cbn.
        eexists _, 0. repeat split; try reflexivity; try discriminate; lia.
      + apply Z.leb_gt in Hceil. cbn.
        eexists _, _. repeat split; try reflexivity; try discriminate; lia.
  }
  destruct Hfields as (r & a & Hout & Hrem & Hrange & Hden & Hreset & Hfail).
  exists r, a. repeat (split; [assumption |]).
  intros Hallowed. exists (ceil_seconds (windowMs c)).
  split; [apply Hreset, Hallowed | exact Hwhole].
Qed.

(** * The further properties at concrete inputs *)

(** [rateLimit("ip1")], all defaults, on a table with two attempts: the
    attempt of the other identifier is in the table left behind, as it was in
    the table before. *)
Lemma success_call_never_inserts_witness :
  let a1 := {| identifier := "auth_ip1"; attempt_count := 1;
               blocked := false; created_at := 1700000000000 |} in
  let a2 := {| identifier := "auth_ip2"; attempt_count := 1;
               blocked := false; created_at := 1700000000500 |} in
  fst (rateLimit "ip1" None None 1700000001000 no_faults [a1; a2]) = [a2]
  /\ In a2 [a1; a2].
Proof.
  intros a1 a2. split; [reflexivity |].
  apply (success_call_never_inserts "ip1" None None 1700000001000 no_faults
           [a1; a2] a2).
  - reflexivity.
  - left. reflexivity.
Defined.

(** Three calls of the notifications route, the second with a store whose
    count query throws. *)
Lemma api_throttle_never_blocks_witness :
  let calls :=
    [ (1700000000000, no_faults);
      (1700000000010,
       {| cleanup_throws := false; blockCheck_throws := false;
          count_throws := true; insertAttempt_throws := false;
          insertBlock_throws := false; reset_throws := false |});
      (1700000000020, no_faults) ] in
  let s := [ {| identifier := "api_general_notifications-get";
                attempt_count := 100; blocked := false;
                created_at := 1699999999000 |} ] in
  Forall (fun o => exists r, o = Returned r /\ allowed r = true)
    (fst (run_api "notifications-get" calls s))
  /\ List.length (fst (run_api "notifications-get" calls s)) = List.length calls
  /\ no_block (make_key "api_general" "notifications-get")
       (snd (run_api "notifications-get" calls s))
  /\ (forall r, In r (snd (run_api "notifications-get" calls s)) -> In r s).
Proof.
  intros calls s.
  apply (api_throttle_never_blocks "notifications-get" calls s).
  intros r [<- | []] _. reflexivity.
Defined.

(** The default middleware on a key blocked one minute ago. *)
Lemma middleware_denies_iff_blocked_witness :
  let s := [ {| identifier := "api_general_ip1"; attempt_count := 100;
                blocked := true; created_at := 1700000000000 |} ] in
  exists s' r,
    createRateLimitMiddleware None "ip1" 1700000060000 no_faults s
    = (s', Returned r)
    /\ (allowed r = false <->
        exists row, In row s /\ identifier row = "api_general_ip1"
                    /\ blocked row = true
                    /\ 1700000060000 - 300000 <= created_at row)
    /\ (forall x, In x s' -> In x s).
Proof.
  intros s.
  apply (middleware_denies_iff_blocked None "ip1"
           {| windowMs := 60000; maxAttempts := 100;
              blockDurationMs := 300000 |} 1700000060000 s).
  reflexivity.
Defined.

(** A success call does not remove the block row of its own key. *)
Lemma recent_rows_survive_witness :
  let block := {| identifier := "auth_ip1"; attempt_count := 5;
                  blocked := true; created_at := 1700000000000 |} in
  In block
    (fst (rateLimit "ip1" (Some true) (Some "auth") 1700000001000 all_faults
            [block])).
Proof.
  intros block.
  apply (recent_rows_survive "auth" "ip1"
           {| windowMs := 900000; maxAttempts := 5;
              blockDurationMs := 3600000 |}
           true 1700000001000 all_faults [block] block).
  - reflexivity.
  - left. reflexivity.
  - cbn. lia.
  - left. reflexivity.
Defined.

(** The rows of another identifier do not change the decision. *)
Lemma decision_depends_on_own_rows_witness :
  let a1 := {| identifier := "auth_ip1"; attempt_count := 1;
               blocked := false; created_at := 1700000000000 |} in
  let b2 := {| identifier := "auth_ip2"; attempt_count := 5;
               blocked := true; created_at := 1700000000500 |} in
  snd (rateLimit "ip1" (Some false) (Some "auth") 1700000001000 no_faults
         [a1; b2])
  = snd (rateLimit "ip1" (Some false) (Some "auth") 1700000001000 no_faults
           [a1])
  /\ key_rows (make_key "auth" "ip1")
       (fst (rateLimit "ip1" (Some false) (Some "auth") 1700000001000
               no_faults [a1; b2]))
     = key_rows (make_key "auth" "ip1")
         (fst (rateLimit "ip1" (Some false) (Some "auth") 1700000001000
                 no_faults [a1])).
Proof.
  intros a1 b2.
  apply (decision_depends_on_own_rows "auth" "ip1"
           {| windowMs := 900000; maxAttempts := 5;
              blockDurationMs := 3600000 |}
           false 1700000001000 no_faults [a1; b2] [a1]).
  - reflexivity.
  - reflexivity.
Defined.

Lemma registered_keys_distinct_witness :
  "password_reset" = "password_reset" /\ "ip1" = "ip1".
Proof.
  apply (registered_keys_distinct "password_reset" "password_reset" "ip1" "ip1"
           {| windowMs := 3600000; maxAttempts := 3;
              blockDurationMs := 86400000 |}
           {| windowMs := 3600000; maxAttempts := 3;
              blockDurationMs := 86400000 |}).
  - reflexivity.
  - reflexivity.
  - reflexivity.
Defined.

(** One millisecond after the hour of an ["auth"] block. *)
Lemma expired_rows_forgotten_witness :
  let a5 := {| identifier := "auth_ip1"; attempt_count := 5;
               blocked := false; created_at := 1700000000000 |} in
  let block := {| identifier := "auth_ip1"; attempt_count := 5;
                  blocked := true; created_at := 1700000000000 |} in
  rateLimit "ip1" (Some false) (Some "auth") 1700003600001 no_faults
    [a5; block] =
  ([ {| identifier := "auth_ip1"; attempt_count := 1;
        blocked := false; created_at := 1700003600001 |} ],
   Returned {| allowed := true; remaining := Num 4; resetTime := Num 900 |})
  /\ rateLimit "ip1" (Some true) (Some "auth") 1700003600001 no_faults
       [a5; block] =
     ([], Returned {| allowed := true; remaining := Num 5;
                      resetTime := Num 900 |}).
Proof.
  intros a5 block.
  apply (expired_rows_forgotten "auth" "ip1"
           {| windowMs := 900000; maxAttempts := 5;
              blockDurationMs := 3600000 |}
           1700003600001 [a5; block]).
  - reflexivity.
  - intros r [<- | [<- | []]] _; cbn; lia.
Defined.

(** Exactly at the hour of an ["auth"] block: denied, with [resetTime = 0]. *)
Lemma reset_time_is_sufficient_witness :
  let block := {| identifier := "auth_ip1"; attempt_count := 5;
                  blocked := true; created_at := 1700000000000 |} in
  exists z,
    snd (rateLimit "ip1" (Some true) (Some "auth") 1700003600000 no_faults
           [block])
    = Returned {| allowed := false; remaining := Num 0; resetTime := Num z |}
    /\ 1700000000000 + 3600000 - 1700003600000 <= 1000 * z
       < 1700000000000 + 3600000 - 1700003600000 + 1000
    /\ (z = 0 <-> 1700000000000 = 1700003600000 - 3600000)
    /\ forall now', 1700003600000 + 1000 * z < now' ->
         select_block (make_key "auth" "ip1") (now' - 3600000) [block] = None.
Proof.
  intros block.
  apply (reset_time_is_sufficient "auth" "ip1"
           {| windowMs := 900000; maxAttempts := 5;
              blockDurationMs := 3600000 |}
           true 1700003600000 no_faults [block] block);
    reflexivity.
Defined.

(** The third failing password-reset attempt, then a success call one second
    later. *)
Lemma ceiling_then_denied_witness :
  let a1 := {| identifier := "password_reset_ip1"; attempt_count := 1;
               blocked := false; created_at := 1700000000000 |} in
  let a2 := {| identifier := "password_reset_ip1"; attempt_count := 2;
               blocked := false; created_at := 1700000001000 |} in
  snd (rateLimit "ip1" (Some true) (Some "password_reset") 1700000003000
         no_faults
         (fst (rateLimit "ip1" (Some false) (Some "password_reset")
                 1700000002000 no_faults [a1; a2])))
  = Returned {| allowed := false; remaining := Num 0;
                resetTime := Num 86399 |}
  /\ (1700000002000 <= 1700000003000 -> 86399 <= 86400).
Proof.
  intros a1 a2.
  apply (ceiling_then_denied "password_reset" "ip1"
           {| windowMs := 3600000; maxAttempts := 3;
              blockDurationMs := 86400000 |}
           true 1700000002000 1700000003000 no_faults [a1; a2]).
  - reflexivity.
  - intros r [<- | [<- | []]] _; reflexivity.
  - vm_compute. discriminate.
  - cbn. lia.
  - reflexivity.
  - reflexivity.
Defined.

(** A password-reset block ten minutes old, a call of the notifications
    route, then a password-reset success call. *)
Lemma cleanup_lifts_other_blocks_witness :
  let block := {| identifier := "password_reset_ip2"; attempt_count := 3;
                  blocked := true; created_at := 1700000000000 |} in
  (exists r,
      snd (rateLimit "ip2" (Some true) (Some "password_reset") 1700000601000
             no_faults
             (fst (rateLimit "notifications-get" (Some true)
                     (Some "api_general") 1700000600000 no_faults [block])))
      = Returned r /\ allowed r = true)
  /\ (exists r,
         snd (rateLimit "ip2" (Some true) (Some "password_reset")
                1700000601000 no_faults [block]) = Returned r
         /\ allowed r = false).
Proof.
  intros block.
  destruct (cleanup_lifts_other_blocks "api_general" "password_reset"
              "notifications-get" "ip2"
              {| windowMs := 60000; maxAttempts := 100;
                 blockDurationMs := 300000 |}
              {| windowMs := 3600000; maxAttempts := 3;
                 blockDurationMs := 86400000 |}
              true 1700000600000 1700000601000 no_faults no_faults [block])
    as [Hafter Hbefore].
  - reflexivity.
  - reflexivity.
  - intros Hkey. cbv in Hkey. discriminate Hkey.
  - reflexivity.
  - intros r [<- | []] _ _. cbn. lia.
  - split; [exact Hafter |].
    apply Hbefore; [reflexivity | reflexivity |].
    exists block. split; [left; reflexivity |].
    split; [reflexivity |]. split; [reflexivity |]. cbn. lia.
Defined.

(** One failed login every quarter of an hour and a millisecond. *)
Lemma spaced_failures_never_block_witness :
  fst (run_calls "ip1" "auth"
         (map (pair false)
            [1700000000000; 1700000900001; 1700001800002; 1700002700003;
             1700003600004; 1700004500005])
         [])
  = map (fun _ => Returned {| allowed := true; remaining := Num (5 - 1);
                              resetTime := Num (ceil_seconds 900000) |})
      [1700000000000; 1700000900001; 1700001800002; 1700002700003;
       1700003600004; 1700004500005].
Proof.
  apply (spaced_failures_never_block "auth" "ip1"
           {| windowMs := 900000; maxAttempts := 5;
              blockDurationMs := 3600000 |}
           [1700000000000; 1700000900001; 1700001800002; 1700002700003;
            1700003600004; 1700004500005]
           eq_refl 1699999000000 []).
  - intros r [].
  - intros r [].
  - cbn. repeat split; lia.
Defined.

(** A failing call on a store whose every call throws, and a first failed
    login on a working store: both report a reset time of 900 seconds. *)
Lemma result_fields_consistent_witness :
  (snd (rateLimit "ip1" (Some false) (Some "auth") 1700000000000
          all_faults [])
   = Returned {| allowed := true; remaining := Num 5; resetTime := Num 900 |}
   /\ snd (rateLimit "ip1" (Some false) (Some "auth") 1700000000000
             no_faults [])
      = Returned {| allowed := true; remaining := Num 4;
                    resetTime := Num 900 |})
  /\ (exists r a,
         snd (rateLimit "ip1" (Some false) (Some "auth") 1700000000000
                all_faults []) = Returned r
         /\ remaining r = Num a
         /\ 0 <= a <= 5
         /\ (allowed r = false -> a = 0)
         /\ (allowed r = true -> resetTime r = Num (ceil_seconds 900000))
         /\ (false = false -> allowed r = true -> 1 <= a)
         /\ (allowed r = true ->
             exists z, resetTime r = Num z /\ 1000 * z = 900000)).
Proof.
  split; [split; reflexivity |].
  apply (result_fields_consistent "auth" "ip1"
           {| windowMs := 900000; maxAttempts := 5;
              blockDurationMs := 3600000 |}
           false 1700000000000 all_faults []).
  reflexivity.
Defined.
